(** * Callback URI factory and callback poller of the browser URL service

    Shallow embedding of [SelfhostURLCallbackProvider] as it appears in the
    two revisions of [vs/workbench/services/url/browser/urlService.ts]:

    - module [V1]: the revision whose [create] concatenates the callback URI
      text and whose [doFetch] retries every 500ms with no timeout;
    - module [V2]: the revision with [FETCH_INTERVAL], [FETCH_TIMEOUT],
      [QUERY_KEYS], [periodicFetchCallback] and [doCreateUri].

    Strings are byte strings (the UTF-8 form of the JavaScript strings), times
    are milliseconds in [Z], and the asynchronous poll is a function that
    yields the timed trace of the effects it performs. *)

From Stdlib Require Import ZArith List String Ascii Bool Lia.
Import ListNotations.

Local Open Scope string_scope.

(** ** Strings *)

Definition byteLength (content : string) : Z := Z.of_nat (String.length content).

(** JavaScript truthiness of an optional string: [undefined] and [''] are falsy. *)
Definition truthy (v : option string) : bool :=
  match v with
  | Some s => negb (s =? "")
  | None => false
  end.

Fixpoint count_char (c : ascii) (s : string) : nat :=
  match s with
  | EmptyString => 0
  | String d r => (if Ascii.eqb d c then 1 else 0) + count_char c r
  end.

Definition contains_char (c : ascii) (s : string) : bool :=
  negb (Nat.eqb (count_char c s) 0).

(** [split_on c s] cuts [s] at every occurrence of [c]. *)
Fixpoint split_on (c : ascii) (s : string) : list string :=
  match s with
  | EmptyString => [EmptyString]
  | String d r =>
      if Ascii.eqb d c then EmptyString :: split_on c r
      else match split_on c r with
           | [] => [String d EmptyString]
           | w :: ws => String d w :: ws
           end
  end.

(** ** [encodeURIComponent] and [decodeURIComponent] on UTF-8 bytes *)

Definition hex_digit (n : N) : ascii :=
  if (n <? 10)%N then ascii_of_N (48 + n) else ascii_of_N (55 + n).

Definition hex_value (c : ascii) : option N :=
  let n := N_of_ascii c in
  if ((48 <=? n) && (n <=? 57))%N then Some (n - 48)%N
  else if ((65 <=? n) && (n <=? 70))%N then Some (n - 55)%N
  else if ((97 <=? n) && (n <=? 102))%N then Some (n - 87)%N
  else None.

(** The characters [encodeURIComponent] leaves alone:
    [A-Z a-z 0-9 - _ . ! ~ * ' ( )]. *)
Definition uri_unescaped (c : ascii) : bool :=
  let n := N_of_ascii c in
  (((65 <=? n) && (n <=? 90)) || ((97 <=? n) && (n <=? 122))
   || ((48 <=? n) && (n <=? 57))
   || (n =? 45) || (n =? 95) || (n =? 46) || (n =? 33) || (n =? 126)
   || (n =? 42) || (n =? 39) || (n =? 40) || (n =? 41))%N.

Definition percent_byte (c : ascii) (rest : string) : string :=
  let n := N_of_ascii c in
  String "%" (String (hex_digit (n / 16)) (String (hex_digit (n mod 16)) rest)).

Fixpoint encodeURIComponent (s : string) : string :=
  match s with
  | EmptyString => EmptyString
  | String c r =>
      if uri_unescaped c then String c (encodeURIComponent r)
      else percent_byte c (encodeURIComponent r)
  end.

(** [None] stands for the [URIError] raised on a malformed escape. *)
Fixpoint decodeURIComponent (s : string) : option string :=
  match s with
  | EmptyString => Some EmptyString
  | String c r =>
      if Ascii.eqb c "%" then
        match r with
        | String h (String l r') =>
            match hex_value h, hex_value l with
            | Some a, Some b =>
                option_map (String (ascii_of_N (16 * a + b))) (decodeURIComponent r')
            | _, _ => None
            end
        | _ => None
        end
      else option_map (String c) (decodeURIComponent r)
  end.

(** ** [JSON.parse] *)

#[local] Set Warnings "-register-all".

Inductive JSON : Type :=
| JNull
| JBool (b : bool)
| JNumber (literal : string)
| JString (s : string)
| JArray (elements : list JSON)
| JObject (members : list (string * JSON)).

Inductive error : Type :=
| SyntaxError   (* raised by JSON.parse *)
| TypeError     (* a value without the method or property that is used *)
| UriError.     (* raised while a URI is rebuilt *)

Definition dquote : ascii := ascii_of_nat 34.
Definition backslash : ascii := ascii_of_nat 92.

Definition is_ws (c : ascii) : bool :=
  let n := N_of_ascii c in ((n =? 32) || (n =? 9) || (n =? 10) || (n =? 13))%N.

Definition is_digit (c : ascii) : bool :=
  let n := N_of_ascii c in ((48 <=? n) && (n <=? 57))%N.

Fixpoint skip_ws (s : string) : string :=
  match s with
  | EmptyString => EmptyString
  | String c r => if is_ws c then skip_ws r else s
  end.

Fixpoint strip_prefix (p s : string) : option string :=
  match p, s with
  | EmptyString, _ => Some s
  | String a p', String b s' => if Ascii.eqb a b then strip_prefix p' s' else None
  | String _ _, EmptyString => None
  end.

Fixpoint span_digits (s : string) : string * string :=
  match s with
  | EmptyString => (EmptyString, EmptyString)
  | String c r =>
      if is_digit c then let (d, rest) := span_digits r in (String c d, rest)
      else (EmptyString, s)
  end.

(** UTF-8 bytes of the code point [n]; a surrogate that stands alone is
    written like any other code unit, in three bytes. *)
Definition utf8_of_code_point (n : N) (rest : string) : string :=
  if (n <? 128)%N then String (ascii_of_N n) rest
  else if (n <? 2048)%N then
    String (ascii_of_N (192 + n / 64)) (String (ascii_of_N (128 + n mod 64)) rest)
  else if (n <? 65536)%N then
    String (ascii_of_N (224 + n / 4096))
      (String (ascii_of_N (128 + (n / 64) mod 64))
         (String (ascii_of_N (128 + n mod 64)) rest))
  else
    String (ascii_of_N (240 + n / 262144))
      (String (ascii_of_N (128 + (n / 4096) mod 64))
         (String (ascii_of_N (128 + (n / 64) mod 64))
            (String (ascii_of_N (128 + n mod 64)) rest))).

Definition is_high_surrogate (n : N) : bool := ((55296 <=? n) && (n <=? 56319))%N.
Definition is_low_surrogate (n : N) : bool := ((56320 <=? n) && (n <=? 57343))%N.

(** The code point of the surrogate pair [hi], [lo]. *)
Definition of_surrogates (hi lo : N) : N :=
  (65536 + (hi - 55296) * 1024 + (lo - 56320))%N.

Definition simple_escape (e : ascii) : option ascii :=
  if Ascii.eqb e dquote then Some dquote
  else if Ascii.eqb e backslash then Some backslash
  else if Ascii.eqb e "/" then Some "/"%char
  else if Ascii.eqb e "b" then Some (ascii_of_nat 8)
  else if Ascii.eqb e "f" then Some (ascii_of_nat 12)
  else if Ascii.eqb e "n" then Some (ascii_of_nat 10)
  else if Ascii.eqb e "r" then Some (ascii_of_nat 13)
  else if Ascii.eqb e "t" then Some (ascii_of_nat 9)
  else None.

Definition hex4 (a b c d : ascii) : option N :=
  match hex_value a, hex_value b, hex_value c, hex_value d with
  | Some w, Some x, Some y, Some z => Some (4096 * w + 256 * x + 16 * y + z)%N
  | _, _, _, _ => None
  end.

Definition push (f : string -> string) (r : option (string * string))
  : option (string * string) :=
  match r with
  | Some (s, rest) => Some (f s, rest)
  | None => None
  end.

(** The characters of a string literal after its opening quote, up to the
    closing quote; the result pairs the decoded text with what follows.  Two
    [\u] escapes that form a surrogate pair give one code point. *)
Fixpoint parse_string_chars (s : string) : option (string * string) :=
  match s with
  | EmptyString => None
  | String c r =>
      if Ascii.eqb c dquote then Some (EmptyString, r)
      else if Ascii.eqb c backslash then
        match r with
        | EmptyString => None
        | String e r1 =>
            if Ascii.eqb e "u" then
              match r1 with
              | String h1 (String h2 (String h3 (String h4 r2))) =>
                  match hex4 h1 h2 h3 h4 with
                  | Some n =>
                      let alone :=
                        push (utf8_of_code_point n) (parse_string_chars r2) in
                      match r2 with
                      | String b (String u (String l1 (String l2
                          (String l3 (String l4 r3))))) =>
                          if (is_high_surrogate n && Ascii.eqb b backslash
                              && Ascii.eqb u "u")%bool then
                            match hex4 l1 l2 l3 l4 with
                            | Some m =>
                                if is_low_surrogate m then
                                  push (utf8_of_code_point (of_surrogates n m))
                                       (parse_string_chars r3)
                                else alone
                            | None => alone
                            end
                          else alone
                      | _ => alone
                      end
                  | None => None
                  end
              | _ => None
              end
            else
              match simple_escape e with
              | Some x => push (String x) (parse_string_chars r1)
              | None => None
              end
        end
      else if (N_of_ascii c <? 32)%N then None
      else push (String c) (parse_string_chars r)
  end.

Definition parse_digits1 (s : string) : option (string * string) :=
  let (d, rest) := span_digits s in
  if d =? "" then None else Some (d, rest).

(** An optional minus sign, an integer part without a leading zero (unless it
    is the single digit 0), an optional fraction and an optional exponent; the
    literal is kept as written. *)
Definition parse_number (s : string) : option (string * string) :=
  let (sign, s1) :=
    match strip_prefix "-" s with Some r => ("-", r) | None => ("", s) end in
  match parse_digits1 s1 with
  | None => None
  | Some (int, s2) =>
      if ((1 <? String.length int)%nat && (String.prefix "0" int))%bool then None
      else
        let frac :=
          match strip_prefix "." s2 with
          | Some r => push (append ".") (parse_digits1 r)
          | None => Some ("", s2)
          end in
        match frac with
        | None => None
        | Some (f, s3) =>
            let expo :=
              match s3 with
              | String e r =>
                  if (Ascii.eqb e "e" || Ascii.eqb e "E")%bool then
                    let (sg, r') :=
                      match r with
                      | String g r' =>
                          if (Ascii.eqb g "+" || Ascii.eqb g "-")%bool
                          then (String g "", r') else ("", r)
                      | EmptyString => ("", r)
                      end in
                    push (fun d => String e (sg ++ d)) (parse_digits1 r')
                  else Some ("", s3)
              | EmptyString => Some ("", s3)
              end in
            push (fun x => sign ++ int ++ f ++ x) expo
        end
  end.

Fixpoint parse_value (fuel : nat) (s : string) {struct fuel}
  : option (JSON * string) :=
  match fuel with
  | O => None
  | S fuel' =>
      match skip_ws s with
      | EmptyString => None
      | String c r =>
          if Ascii.eqb c "[" then
            match strip_prefix "]" (skip_ws r) with
            | Some r' => Some (JArray [], r')
            | None =>
                match parse_elements fuel' r with
                | Some (vs, r') => Some (JArray vs, r')
                | None => None
                end
            end
          else if Ascii.eqb c "{" then
            match strip_prefix "}" (skip_ws r) with
            | Some r' => Some (JObject [], r')
            | None =>
                match parse_members fuel' r with
                | Some (ms, r') => Some (JObject ms, r')
                | None => None
                end
            end
          else if Ascii.eqb c dquote then
            match parse_string_chars r with
            | Some (str, r') => Some (JString str, r')
            | None => None
            end
          else if Ascii.eqb c "t" then
            option_map (pair (JBool true)) (strip_prefix "rue" r)
          else if Ascii.eqb c "f" then
            option_map (pair (JBool false)) (strip_prefix "alse" r)
          else if Ascii.eqb c "n" then
            option_map (pair JNull) (strip_prefix "ull" r)
          else
            match parse_number (String c r) with
            | Some (lit, r') => Some (JNumber lit, r')
            | None => None
            end
      end
  end
with parse_elements (fuel : nat) (s : string) {struct fuel}
  : option (list JSON * string) :=
  match fuel with
  | O => None
  | S fuel' =>
      match parse_value fuel' s with
      | None => None
      | Some (v, r) =>
          match skip_ws r with
          | String c r' =>
              if Ascii.eqb c "," then
                match parse_elements fuel' r' with
                | Some (vs, r'') => Some (v :: vs, r'')
                | None => None
                end
              else if Ascii.eqb c "]" then Some ([v], r')
              else None
          | EmptyString => None
          end
      end
  end
with parse_members (fuel : nat) (s : string) {struct fuel}
  : option (list (string * JSON) * string) :=
  match fuel with
  | O => None
  | S fuel' =>
      match strip_prefix (String dquote "") (skip_ws s) with
      | None => None
      | Some r0 =>
          match parse_string_chars r0 with
          | None => None
          | Some (key, r1) =>
              match strip_prefix ":" (skip_ws r1) with
              | None => None
              | Some r2 =>
                  match parse_value fuel' r2 with
                  | None => None
                  | Some (v, r3) =>
                      match skip_ws r3 with
                      | String c r4 =>
                          if Ascii.eqb c "," then
                            match parse_members fuel' r4 with
                            | Some (ms, r5) => Some ((key, v) :: ms, r5)
                            | None => None
                            end
                          else if Ascii.eqb c "}" then Some ([(key, v)], r4)
                          else None
                      | EmptyString => None
                      end
                  end
              end
          end
      end
  end.

(** [JSON.parse text]: one value, then nothing but white space.  Two nested
    calls of the parser never start at the same position twice in a row, so
    twice the length of the text bounds the nesting. *)
Definition JSON_parse (text : string) : error + JSON :=
  match parse_value (2 * String.length text + 2) text with
  | Some (v, rest) =>
      if skip_ws rest =? "" then inr v else inl SyntaxError
  | None => inl SyntaxError
  end.

(** A JSON text is written with [q] around its string literals. *)
Definition q (s : string) : string := String dquote (s ++ String dquote "").

(** ** URIs and [URI.revive] *)

Record URI : Type := mkURI {
  scheme : string;
  authority : string;
  path : string;
  query : string;
  fragment : string
}.

(** Property lookup in a parsed object: a repeated key keeps its last value. *)
Fixpoint lookup (key : string) (members : list (string * JSON)) : option JSON :=
  match members with
  | [] => None
  | (k, v) :: rest =>
      match lookup key rest with
      | Some w => Some w
      | None => if k =? key then Some v else None
      end
  end.

Definition text_or_absent (key : string) (members : list (string * JSON)) : bool :=
  match lookup key members with
  | None | Some JNull | Some (JString _) => true
  | Some _ => false
  end.

(** A [UriComponents] record: an object whose [scheme], [authority], [path],
    [query] and [fragment], where present, are strings. *)
Definition is_UriComponents (v : JSON) : bool :=
  match v with
  | JObject ms =>
      text_or_absent "scheme" ms && text_or_absent "authority" ms
      && text_or_absent "path" ms && text_or_absent "query" ms
      && text_or_absent "fragment" ms
  | _ => false
  end.

Definition component (key : string) (members : list (string * JSON)) : string :=
  match lookup key members with
  | Some (JString s) => s
  | _ => EmptyString
  end.

(** Modelled from the spec: [URI.revive] is defined in vs/base/common/uri,
    which is not among the sources.  The spec has the poller "reconstruct a
    URI" from each URI-component record (scheme, authority, path, query,
    fragment); a component the record lacks is empty. *)
Definition revive_components (v : JSON) : URI :=
  match v with
  | JObject ms =>
      mkURI (component "scheme" ms) (component "authority" ms)
            (component "path" ms) (component "query" ms) (component "fragment" ms)
  | _ => mkURI "" "" "" "" ""
  end.

(** Modelled from the spec: [URI.with] is defined in vs/base/common/uri, which
    is not among the sources.  It replaces the named components; the spec
    gives the produced URI as [<origin>/callback?...], so the path of a URI
    is rooted. *)
Definition rooted (p : string) : string :=
  if String.prefix "/" p then p else "/" ++ p.

Definition URI_with (base : URI) (new_path new_query : string) : URI :=
  mkURI (scheme base) (authority base) (rooted new_path) new_query (fragment base).

(** ** Effects *)

Local Open Scope Z_scope.

(** The tokens of vs/base/common/cancellation: the two static ones and those
    of a [CancellationTokenSource]. *)
Inductive CancellationToken : Type :=
| CancellationToken_None
| CancellationToken_Cancelled
| CancellationToken_of_source (source : nat).

Inductive event : Type :=
| Request (url : string) (token : CancellationToken)  (* requestService.request *)
| Response (length : Z)          (* streamToBuffer has delivered the body *)
| Rejected                       (* the awaited request or body has failed *)
| Fire (uri : URI)               (* _onCallback.fire *)
| LogError (e : error)           (* logService.error *)
| SetTimeout (delay : Z).        (* setTimeout(retry, delay) *)

(** A trace lists the effects of a poll session with the time of each. *)
Definition trace : Type := list (Z * event).

Inductive status : Type :=
| Done       (* nothing of the session is left to run *)
| Pending.   (* a request or a timer of the session is outstanding *)

Definition emit (e : Z * event) (r : trace * status) : trace * status :=
  (e :: fst r, snd r).

Definition is_request (e : Z * event) : bool :=
  match snd e with Request _ _ => true | _ => false end.

Definition is_response (e : Z * event) : bool :=
  match snd e with Response _ => true | _ => false end.

(** Times of the fetch attempts, in order. *)
Definition requests (tr : trace) : list Z := map fst (filter is_request tr).

(** Times at which the bodies were read, in order. *)
Definition responses (tr : trace) : list Z := map fst (filter is_response tr).

Fixpoint request_urls (tr : trace) : list string :=
  match tr with
  | [] => []
  | (_, Request url _) :: r => url :: request_urls r
  | _ :: r => request_urls r
  end.

Fixpoint fired (tr : trace) : list URI :=
  match tr with
  | [] => []
  | (_, Fire u) :: r => u :: fired r
  | _ :: r => fired r
  end.

Fixpoint logged (tr : trace) : list error :=
  match tr with
  | [] => []
  | (_, LogError e) :: r => e :: logged r
  | _ :: r => logged r
  end.

Fixpoint timeouts (tr : trace) : list Z :=
  match tr with
  | [] => []
  | (_, SetTimeout d) :: r => d :: timeouts r
  | _ :: r => timeouts r
  end.

(** Modelled from the spec: [Emitter] is defined in vs/base/common/event,
    which is not among the sources.  The spec asks for synchronous, in-order
    delivery of each fired URI to the listeners subscribed at that time. *)
Abbreviation listener := nat (only parsing).

Definition deliveries (listeners : list listener) (tr : trace)
  : list (listener * URI) :=
  flat_map (fun u => map (fun l => (l, u)) listeners) (fired tr).

Definition received (l : listener) (listeners : list listener) (tr : trace)
  : list URI :=
  map snd (filter (fun d => Nat.eqb (fst d) l) (deliveries listeners tr)).

(** ** The transport and the clock *)

(** What a session meets: the body of its k-th fetch (counted from 0), or
    [None] when the request or the reading of its stream fails; the time that
    fetch takes until its body is read or it has failed; and how late after
    its delay the k-th timer runs. *)
Record Transport : Type := mkTransport {
  body : nat -> option string;
  latency : nat -> Z;
  lag : nat -> Z
}.

Definition punctual (net : Transport) : Prop :=
  forall k, 0 <= latency net k /\ 0 <= lag net k.

(** ** Handling a non-empty body *)

Section Content.

(** What [URI.revive] does with an element that is not a [UriComponents]
    record is decided by vs/base/common/uri, outside the sources: it may
    throw ([inl]) or yield some URI ([inr]). *)
Variable revive_other : JSON -> error + URI.

Definition URI_revive (v : JSON) : error + URI :=
  if is_UriComponents v then inr (revive_components v) else revive_other v.

(** [uris.forEach(uri => this._onCallback.fire(URI.revive(uri)))]: an
    exception leaves the loop and reaches the [catch]. *)
Fixpoint forEach_fire (uris : list JSON) : list event :=
  match uris with
  | [] => []
  | u :: rest =>
      match URI_revive u with
      | inr uri => Fire uri :: forEach_fire rest
      | inl e => [LogError e]
      end
  end.

(** The [try { ... } catch (error) { this.logService.error(error) }] block
    both revisions run on a non-empty body. *)
Definition handle_content (content : string) : list event :=
  match JSON_parse content with
  | inl e => [LogError e]
  | inr (JArray uris) => forEach_fire uris
  | inr _ => [LogError TypeError]
  end.

End Content.

(** Optional fields of [IURLCreateOptions]. *)
Record IURLCreateOptions : Type := mkOptions {
  opt_path : option string;
  opt_query : option string;
  opt_fragment : option string
}.

(** [options ? options : { path: undefined, query: undefined, fragment: undefined }] *)
Definition destructure (options : option IURLCreateOptions) : IURLCreateOptions :=
  match options with
  | Some o => o
  | None => mkOptions None None None
  end.

Definition text (v : option string) : string :=
  match v with Some s => s | None => EmptyString end.

(** ** The revision without a timeout: [create] and [doFetch] *)

Module V1.
Section Provider.

Variable origin : string.                    (* window.location.origin *)
Variable URI_parse : string -> URI.          (* vs/base/common/uri *)
Variable revive_other : JSON -> error + URI.
Variable net : Transport.

(** The text [create] hands to [URI.parse]. *)
Definition baseAppUriRaw (identifier : string)
    (options : option IURLCreateOptions) : string :=
  let o := destructure options in
  let baseAppUriRaw := origin ++ "/callback?vscode-id=" ++ identifier in
  let baseAppUriRaw :=
    if truthy (opt_path o)
    then baseAppUriRaw ++ "&vscode-path=" ++ encodeURIComponent (text (opt_path o))
    else baseAppUriRaw in
  let baseAppUriRaw :=
    if truthy (opt_query o)
    then baseAppUriRaw ++ "&vscode-query=" ++ encodeURIComponent (text (opt_query o))
    else baseAppUriRaw in
  let baseAppUriRaw :=
    if truthy (opt_fragment o)
    then baseAppUriRaw ++ "&vscode-fragment="
                       ++ encodeURIComponent (text (opt_fragment o))
    else baseAppUriRaw in
  baseAppUriRaw.

Definition fetch_url (identifier : string) : string :=
  origin ++ "/fetch-callback?vscode-id=" ++ identifier.

(** [doFetch identifier], entered at time [now] for the k-th fetch of its
    session.  The request is issued at once; [fuel] bounds how many of the
    awaited bodies the event loop is run for.  Both awaits stand outside the
    [try]: when one of them fails the function ends there, and nobody handles
    the promise it returned. *)
Fixpoint doFetch (fuel : nat) (identifier : string) (k : nat) (now : Z)
  : trace * status :=
  emit (now, Request (fetch_url identifier) CancellationToken_None)
    match fuel with
    | O => ([], Pending)
    | S fuel' =>
        let now' := now + latency net k in
        match body net k with
        | None => ([(now', Rejected)], Done)
        | Some content =>
            emit (now', Response (byteLength content))
              (if byteLength content =? 0 then
                 emit (now', SetTimeout 500)
                   (doFetch fuel' identifier (S k) (now' + 500 + lag net k))
               else
                 (map (pair now') (handle_content revive_other content), Done))
        end
    end.

(** [create identifier options] called at time [now]: the URI it returns
    and the poll session it has started. *)
Definition create (fuel : nat) (now : Z) (identifier : string)
    (options : option IURLCreateOptions) : URI * (trace * status) :=
  let baseAppUriRaw := baseAppUriRaw identifier options in
  let session := doFetch fuel identifier 0 now in
  (URI_parse baseAppUriRaw, session).

End Provider.
End V1.

(** ** The revision with a timeout: [create], [periodicFetchCallback] and
    [doCreateUri] *)

Module V2.

Definition FETCH_INTERVAL : Z := 500.     (* fetch every 500ms *)
Definition FETCH_TIMEOUT : Z := 1000 * 5. (* ...but stop after 5min *)

Module QUERY_KEYS.
Definition ID : string := "vscode-id".
Definition PATH : string := "vscode-path".
Definition QUERY : string := "vscode-query".
Definition FRAGMENT : string := "vscode-fragment".
End QUERY_KEYS.

(** A [Map<string, string>]: entries in insertion order, one per key. *)
Definition Map : Type := list (string * string).

Fixpoint Map_set (m : Map) (key value : string) : Map :=
  match m with
  | [] => [(key, value)]
  | (k, v) :: rest =>
      if String.eqb k key then (k, value) :: rest
      else (k, v) :: Map_set rest key value
  end.

Section Provider.

(** [href t] is [URI.parse(window.location.href)] read at time [t]: the
    location is read anew by every call of [doCreateUri]. *)
Variable href : Z -> URI.
Variable URI_toString : URI -> string.       (* uri.toString(true) *)
Variable revive_other : JSON -> error + URI.
Variable net : Transport.

(** The query [doCreateUri] builds. *)
Definition doCreateUri_query (identifier : string) (payload : option Map)
  : string :=
  let query := QUERY_KEYS.ID ++ "=" ++ identifier in
  match payload with
  | Some entries =>
      fold_left (fun query kv => query ++ "&" ++ fst kv ++ "=" ++ snd kv)
                entries query
  | None => query
  end.

(** [doCreateUri identifier path payload] called at time [now]. *)
Definition doCreateUri (now : Z) (identifier : string) (path : string)
    (payload : option Map) : URI :=
  URI_with (href now) path (doCreateUri_query identifier payload).

(** The payload [create] collects before it calls [doCreateUri]. *)
Definition create_payload (options : option IURLCreateOptions) : Map :=
  let o := destructure options in
  let payload : Map := [] in
  let payload :=
    if truthy (opt_path o)
    then Map_set payload QUERY_KEYS.PATH (text (opt_path o)) else payload in
  let payload :=
    if truthy (opt_query o)
    then Map_set payload QUERY_KEYS.QUERY (text (opt_query o)) else payload in
  let payload :=
    if truthy (opt_fragment o)
    then Map_set payload QUERY_KEYS.FRAGMENT (text (opt_fragment o))
    else payload in
  payload.

(** The URL a fetch entered at time [now] asks for. *)
Definition fetch_url (now : Z) (identifier : string) : string :=
  URI_toString (doCreateUri now identifier "fetch-callback" None).

(** [periodicFetchCallback identifier startTime], entered at time [now]
    for the k-th fetch of its session.  Both awaits stand outside the [try]:
    when one of them fails the function ends there, and nobody handles the
    promise it returned. *)
Fixpoint periodicFetchCallback (fuel : nat) (identifier : string)
    (startTime : Z) (k : nat) (now : Z) : trace * status :=
  emit (now, Request (fetch_url now identifier) CancellationToken_None)
    match fuel with
    | O => ([], Pending)
    | S fuel' =>
        let now' := now + latency net k in
        match body net k with
        | None => ([(now', Rejected)], Done)
        | Some content =>
            emit (now', Response (byteLength content))
              (if 0 <? byteLength content then
                 (map (pair now') (handle_content revive_other content), Done)
               else if now' - startTime <? FETCH_TIMEOUT then
                 emit (now', SetTimeout FETCH_INTERVAL)
                   (periodicFetchCallback fuel' identifier startTime (S k)
                      (now' + FETCH_INTERVAL + lag net k))
               else ([], Done))
        end
    end.

Definition create (fuel : nat) (now : Z) (identifier : string)
    (options : option IURLCreateOptions) : URI * (trace * status) :=
  let payload := create_payload options in
  let session := periodicFetchCallback fuel identifier now 0 now in
  (doCreateUri now identifier "callback" (Some payload), session).

End Provider.
End V2.

(** ** Sample inputs *)

Definition done_record : string :=
  "{" ++ q "scheme" ++ ":" ++ q "https" ++ ","
      ++ q "authority" ++ ":" ++ q "example.com" ++ ","
      ++ q "path" ++ ":" ++ q "/done" ++ "}".

Definition done_payload : string := "[" ++ done_record ++ "]".

Definition done_uri : URI := mkURI "https" "example.com" "/done" "" "".

(** A transport that answers at once, with empty bodies before the [n]-th
    fetch and [payload] from then on; its timers are exact. *)
Definition answers_after (n : nat) (payload : string) : Transport :=
  mkTransport (fun k => Some (if (k <? n)%nat then EmptyString else payload))
              (fun _ => 0) (fun _ => 0).

(** A transport that answers at once, with empty bodies before the [n]-th
    fetch; the [n]-th fetch and those after it fail. *)
Definition fails_after (n : nat) : Transport :=
  mkTransport (fun k => if (k <? n)%nat then Some EmptyString else None)
              (fun _ => 0) (fun _ => 0).

(** A transport whose first fetch takes [ms] and is empty, and whose later
    fetches return [payload] at once. *)
Definition slow_start (ms : Z) (payload : string) : Transport :=
  mkTransport (fun k => Some (if (k <? 1)%nat then EmptyString else payload))
              (fun k => if (k <? 1)%nat then ms else 0) (fun _ => 0).

Definition done_json : JSON :=
  JObject [("scheme", JString "https"); ("authority", JString "example.com");
           ("path", JString "/done")].

(** An array whose second element is no [UriComponents] record. *)
Definition mixed_payload : string := "[" ++ done_record ++ ",5]".

Definition always_empty : Transport :=
  mkTransport (fun _ => Some EmptyString) (fun _ => 0) (fun _ => 0).

Definition throws : JSON -> error + URI := fun _ => inl UriError.

Definition sample_href : URI := mkURI "https" "vscode.example" "/" "" "".

(** A location that does not change. *)
Definition sample_location : Z -> URI := fun _ => sample_href.

(** A [toString] for the samples: scheme, authority, path and query. *)
Definition sample_toString (u : URI) : string :=
  scheme u ++ "://" ++ authority u ++ path u ++ "?" ++ query u.

(** ** Vocabulary of the statements *)

(** The options a caller provided with a non-empty value, under their query
    keys, in the order path, query, fragment. *)
Definition provided (options : option IURLCreateOptions) : list (string * string) :=
  let o := destructure options in
  (if truthy (opt_path o) then [("vscode-path", text (opt_path o))] else [])
  ++ (if truthy (opt_query o) then [("vscode-query", text (opt_query o))] else [])
  ++ (if truthy (opt_fragment o)
      then [("vscode-fragment", text (opt_fragment o))] else []).

Fixpoint flatten (pieces : list string) : string :=
  match pieces with
  | [] => EmptyString
  | s :: rest => s ++ flatten rest
  end.

(** The query [vscode-id=<identifier>] followed by [&<key>=<enc value>] for
    each listed pair. *)
Definition query_text (enc : string -> string) (identifier : string)
    (pairs : list (string * string)) : string :=
  "vscode-id=" ++ identifier
  ++ flatten (map (fun kv => "&" ++ fst kv ++ "=" ++ enc (snd kv)) pairs).

(** The text after the first [?] of a URI text; there is none when a [#]
    comes first. *)
Fixpoint query_of (raw : string) : string :=
  match raw with
  | EmptyString => EmptyString
  | String c r =>
      if Ascii.eqb c "?" then r
      else if Ascii.eqb c "#" then EmptyString
      else query_of r
  end.

Definition verbatim (v : string) : string := v.

(** The text before the first [#]. *)
Fixpoint before_hash (s : string) : string :=
  match s with
  | EmptyString => EmptyString
  | String c r => if Ascii.eqb c "#" then EmptyString else String c (before_hash r)
  end.

(** A piece [key=value] cut at its first [=]; a piece without [=] is a key
    with an empty value. *)
Fixpoint cut_pair (piece : string) : string * string :=
  match piece with
  | EmptyString => (EmptyString, EmptyString)
  | String c r =>
      if Ascii.eqb c "=" then (EmptyString, r)
      else let (k, v) := cut_pair r in (String c k, v)
  end.

(** A query string read as pairs: cut at every [&], each piece cut at its
    first [=]. *)
Definition query_pairs (qs : string) : list (string * string) :=
  map cut_pair (split_on "&" qs).

Definition query_keys (qs : string) : list string := map fst (query_pairs qs).

(** The query of a URI text: what follows its first [?], up to the first
    [#] after it. *)
Definition text_query (raw : string) : string := before_hash (query_of raw).

(** Successive times lie at least [d] apart. *)
Fixpoint spaced (d : Z) (ts : list Z) : Prop :=
  match ts with
  | a :: (b :: _) as rest => a + d <= b /\ spaced d rest
  | _ => True
  end.

(** The elapsed time read after each of the [n] bodies from the [k]-th on,
    the [k]-th fetch being entered at [now], is below [FETCH_TIMEOUT]. *)
Fixpoint within_timeout (net : Transport) (startTime : Z) (n k : nat) (now : Z)
  : bool :=
  match n with
  | O => true
  | S n' =>
      let now' := now + latency net k in
      (now' - startTime <? V2.FETCH_TIMEOUT)
      && within_timeout net startTime n' (S k)
           (now' + V2.FETCH_INTERVAL + lag net k)
  end.

Definition uses_no_token (e : Z * event) : Prop :=
  match snd e with
  | Request _ token => token = CancellationToken_None
  | _ => True
  end.

(** A key without [&] and [=]. *)
Definition plain_key (kv : string * string) : Prop :=
  count_char "&" (fst kv) = 0%nat /\ count_char "=" (fst kv) = 0%nat.

Definition omit_empty (v : option string) : option string :=
  if truthy v then v else None.

Definition callback_event (e : event) : Prop :=
  match e with
  | Fire _ | LogError _ => True
  | _ => False
  end.

(** What a list of events fires and logs, whatever their time. *)
Definition fires (evs : list event) : list URI := fired (map (pair 0) evs).
Definition logs (evs : list event) : list error := logged (map (pair 0) evs).



(** ** The loop both revisions run *)

(** [doFetch] and [periodicFetchCallback] differ in the URL they ask for and
    in what they do after an empty body: [retry t] is the delay of the next
    fetch when the empty body was read at time [t], or [None] to give up. *)
Section Loop.

Variable retry : Z -> option Z.
Variable url : Z -> string.
Variable revive_other : JSON -> error + URI.
Variable net : Transport.

Fixpoint poll (fuel : nat) (k : nat) (now : Z) : trace * status :=
  emit (now, Request (url now) CancellationToken_None)
    match fuel with
    | O => ([], Pending)
    | S fuel' =>
        let now' := now + latency net k in
        match body net k with
        | None => ([(now', Rejected)], Done)
        | Some content =>
            emit (now', Response (byteLength content))
              (if byteLength content =? 0 then
                 match retry now' with
                 | Some delay =>
                     emit (now', SetTimeout delay)
                       (poll fuel' (S k) (now' + delay + lag net k))
                 | None => ([], Done)
                 end
               else
                 (map (pair now') (handle_content revive_other content), Done))
        end
    end.

End Loop.

Definition retry_always (t : Z) : option Z := Some 500.

Definition retry_until (startTime : Z) (t : Z) : option Z :=
  if t - startTime <? V2.FETCH_TIMEOUT then Some V2.FETCH_INTERVAL else None.

Definition is_rejected (e : Z * event) : bool :=
  match snd e with Rejected => true | _ => false end.

(** The requests of a stretch of a trace that are not answered in it, by a
    body or by a failure. *)
Definition in_flight (tr : trace) : Z :=
  Z.of_nat (List.length (requests tr))
  - Z.of_nat (List.length (responses tr))
  - Z.of_nat (List.length (filter is_rejected tr)).

(** Walking a trace with [open] telling whether a request is unanswered:
    no request is made while one is unanswered, and every body and every
    failure answers a request. *)
Fixpoint one_at_a_time (open : bool) (tr : trace) : Prop :=
  match tr with
  | [] => True
  | (_, Request _ _) :: rest => open = false /\ one_at_a_time true rest
  | (_, Response _) :: rest => open = true /\ one_at_a_time false rest
  | (_, Rejected) :: rest => open = true /\ one_at_a_time false rest
  | _ :: rest => one_at_a_time open rest
  end.

(** How often the value changes along a list of assignments. *)
Fixpoint changes (current : bool) (assignments : list bool) : nat :=
  match assignments with
  | [] => 0
  | b :: rest => (if Bool.eqb current b then 0 else 1) + changes b rest
  end.

(** ** The problems panel: [MarkersFilterActionItem] and [QuickFixAction] *)

Module Markers.

(** The part of a [MarkersFilterActionItem] its [useFilesExclude] accessors
    touch: the [checked] property of the files-exclude checkbox, taken as a
    plain field, and the number of [_onDidChange.fire()] calls so far. *)
Record MarkersFilterActionItem : Type := mkFilterItem {
  filesExcludeFilter_checked : bool;
  onDidChange_fired : nat
}.

Definition get_useFilesExclude (item : MarkersFilterActionItem) : bool :=
  filesExcludeFilter_checked item.

Definition set_useFilesExclude (useFilesExclude : bool)
    (item : MarkersFilterActionItem) : MarkersFilterActionItem :=
  if negb (Bool.eqb (filesExcludeFilter_checked item) useFilesExclude) then
    mkFilterItem useFilesExclude (S (onDidChange_fired item))
  else item.

(** A [QuickFixAction]: its [updated] flag, the [enabled] flag of [Action],
    whether its [onModelAdded] listener is registered, and how often
    [hasFixes] has been asked. *)
Record QuickFixAction : Type := mkQuickFix {
  updated : bool;
  enabled : bool;
  listening : bool;
  hasFixes_asked : nat
}.

Section QuickFix.

(** [isEqual] of vs/base/common/resources, and what the promise of
    [hasFixes] resolves to ([None]: it does not resolve). *)
Variable isEqual : URI -> URI -> bool.
Variable hasFixes : option bool.
Variable marker_resource : URI.

Definition update (a : QuickFixAction) : QuickFixAction :=
  if negb (updated a) then
    mkQuickFix true
      (match hasFixes with Some answer => answer | None => enabled a end)
      (listening a) (S (hasFixes_asked a))
  else a.

(** The constructor; [model_exists] is whether
    [modelService.getModel(this.marker.resourceMarkers.uri)] is a model. *)
Definition new_QuickFixAction (model_exists : bool) : QuickFixAction :=
  let this := mkQuickFix false false false 0 in
  if model_exists then update this
  else mkQuickFix (updated this) (enabled this) true (hasFixes_asked this).

(** The listener registered on [modelService.onModelAdded]. *)
Definition onModelAdded (model_uri : URI) (a : QuickFixAction) : QuickFixAction :=
  if listening a then
    if isEqual model_uri marker_resource then update a else a
  else a.

Definition dispose (a : QuickFixAction) : QuickFixAction :=
  mkQuickFix (updated a) (enabled a) false (hasFixes_asked a).

Definition models_added (models : list URI) (a : QuickFixAction)
  : QuickFixAction :=
  fold_left (fun a model_uri => onModelAdded model_uri a) models a.

End QuickFix.

End Markers.

(** * Properties *)

(** ** Percent-encoding *)

Lemma decode_encoded_byte (c : ascii) (r : string) :
  decodeURIComponent
    (if uri_unescaped c then String c r else percent_byte c r)
  = option_map (String c) (decodeURIComponent r).
Proof.
  destruct c as [[] [] [] [] [] [] [] []]; reflexivity.
Qed.

Lemma decode_encode (s : string) :
  decodeURIComponent (encodeURIComponent s) = Some s.
Proof.
  induction s as [|c r IH]; [reflexivity|].
  cbn [encodeURIComponent].
  assert (E := decode_encoded_byte c (encodeURIComponent r)).
  destruct (uri_unescaped c); rewrite E, IH; reflexivity.
Qed.

(** ** Traces *)

Lemma forEach_fire_callbacks ro (uris : list JSON) :
  Forall callback_event (forEach_fire ro uris).
Proof.
  induction uris as [|u rest IH]; cbn; [constructor|].
  destruct (URI_revive ro u); repeat constructor; assumption.
Qed.

Lemma handle_content_callbacks ro (content : string) :
  Forall callback_event (handle_content ro content).
Proof.
  unfold handle_content.
  destruct (JSON_parse content) as [e|[]];
    try (repeat constructor); apply forEach_fire_callbacks.
Qed.

Lemma callbacks_requests (t : Z) (evs : list event) :
  Forall callback_event evs ->
  requests (map (pair t) evs) = [] /\ responses (map (pair t) evs) = []
  /\ timeouts (map (pair t) evs) = [] /\ request_urls (map (pair t) evs) = []
  /\ Forall uses_no_token (map (pair t) evs).
Proof.
  induction 1 as [|e evs He _ IH]; [repeat split; constructor|].
  destruct IH as (R & P & T & U & K).
  destruct e; cbn in He; try contradiction;
    (repeat split; [exact R|exact P|exact T|exact U|constructor; [exact I|exact K]]).
Qed.

Lemma fired_at (t : Z) (evs : list event) :
  fired (map (pair t) evs) = fired (map (pair 0) evs).
Proof.
  induction evs as [|e evs IH]; [reflexivity|].
  destruct e; cbn; rewrite ?IH; reflexivity.
Qed.

Lemma logged_at (t : Z) (evs : list event) :
  logged (map (pair t) evs) = logged (map (pair 0) evs).
Proof.
  induction evs as [|e evs IH]; [reflexivity|].
  destruct e; cbn; rewrite ?IH; reflexivity.
Qed.

Lemma forEach_fire_records ro (records : list JSON) :
  forallb is_UriComponents records = true ->
  forEach_fire ro records = map Fire (map revive_components records).
Proof.
  induction records as [|r rest IH]; [reflexivity|].
  cbn [forallb]. intros H. apply andb_prop in H as [Hr Hrest].
  cbn [forEach_fire map]. unfold URI_revive. rewrite Hr, (IH Hrest). reflexivity.
Qed.

Lemma fires_map_Fire (us : list URI) : fires (map Fire us) = us.
Proof.
  unfold fires. induction us as [|u us IH]; [reflexivity|].
  cbn. f_equal. exact IH.
Qed.

Lemma logs_map_Fire (us : list URI) : logs (map Fire us) = [].
Proof.
  unfold logs. induction us as [|u us IH]; [reflexivity|exact IH].
Qed.

Lemma handle_content_records ro (content : string) (records : list JSON) :
  JSON_parse content = inr (JArray records) ->
  forallb is_UriComponents records = true ->
  handle_content ro content = map Fire (map revive_components records).
Proof.
  intros P R. unfold handle_content. rewrite P. apply forEach_fire_records, R.
Qed.

Lemma parsed_not_empty (content : string) (v : JSON) :
  JSON_parse content = inr v -> byteLength content <> 0.
Proof.
  destruct content; [discriminate|].
  intros _. unfold byteLength. cbn [String.length]. lia.
Qed.

Lemma byteLength_pos (content : string) :
  byteLength content <> 0 -> (0 <? byteLength content) = true.
Proof.
  unfold byteLength. intros H. apply Z.ltb_lt. lia.
Qed.

Lemma byteLength_empty : byteLength EmptyString = 0.
Proof. reflexivity. Qed.

(** ** Sessions that reach a non-empty body *)

Section Sessions.

Variables (origin : string) (href : Z -> URI) (URI_toString : URI -> string).
Variable revive_other : JSON -> error + URI.
Variable net : Transport.
Variable identifier : string.

Lemma doFetch_reaches (N : nat) (content : string) :
  forall (k : nat) (now : Z) (fuel : nat),
    (forall j, (j < N)%nat -> body net (k + j) = Some EmptyString) ->
    body net (k + N) = Some content ->
    byteLength content <> 0 ->
    (N < fuel)%nat ->
    let r := V1.doFetch origin revive_other net fuel identifier k now in
    snd r = Done
    /\ List.length (requests (fst r)) = S N
    /\ fired (fst r) = fires (handle_content revive_other content)
    /\ logged (fst r) = logs (handle_content revive_other content).
Proof.
  induction N as [|N IH]; intros k now fuel Hempty Hcontent Hbody Hfuel;
    (destruct fuel as [|fuel]; [lia|]); cbn [V1.doFetch].
  - rewrite Nat.add_0_r in Hcontent. rewrite Hcontent.
    destruct (byteLength content =? 0) eqn:E;
      [apply Z.eqb_eq in E; contradiction|].
    destruct (callbacks_requests (now + latency net k) _
                (handle_content_callbacks revive_other content))
      as (R & _).
    cbn. unfold requests in R. rewrite R.
    repeat split; [apply fired_at|apply logged_at].
  - assert (E0 : body net k = Some EmptyString)
      by (rewrite <- (Nat.add_0_r k); apply Hempty; lia).
    rewrite E0.
    cbn [byteLength String.length Z.of_nat Z.eqb].
    destruct (IH (S k) (now + latency net k + 500 + lag net k) fuel)
      as (D & R & F & L).
    + intros j Hj. replace (S k + j)%nat with (k + S j)%nat by lia.
      apply Hempty. lia.
    + replace (S k + N)%nat with (k + S N)%nat by lia. exact Hcontent.
    + exact Hbody.
    + lia.
    + cbn. unfold requests in R. rewrite R. repeat split; assumption.
Qed.

Lemma periodicFetchCallback_reaches (startTime : Z) (N : nat) (content : string) :
  forall (k : nat) (now : Z) (fuel : nat),
    (forall j, (j < N)%nat -> body net (k + j) = Some EmptyString) ->
    body net (k + N) = Some content ->
    byteLength content <> 0 ->
    within_timeout net startTime N k now = true ->
    (N < fuel)%nat ->
    let r := V2.periodicFetchCallback href URI_toString revive_other net
               fuel identifier startTime k now in
    snd r = Done
    /\ List.length (requests (fst r)) = S N
    /\ fired (fst r) = fires (handle_content revive_other content)
    /\ logged (fst r) = logs (handle_content revive_other content).
Proof.
  induction N as [|N IH]; intros k now fuel Hempty Hcontent Hbody Hin Hfuel;
    (destruct fuel as [|fuel]; [lia|]);
    cbn [V2.periodicFetchCallback].
  - rewrite Nat.add_0_r in Hcontent. rewrite Hcontent.
    rewrite (byteLength_pos _ Hbody).
    destruct (callbacks_requests (now + latency net k) _
                (handle_content_callbacks revive_other content))
      as (R & _).
    cbn. unfold requests in R. rewrite R.
    repeat split; [apply fired_at|apply logged_at].
  - assert (E0 : body net k = Some EmptyString)
      by (rewrite <- (Nat.add_0_r k); apply Hempty; lia).
    rewrite E0.
    cbn [byteLength String.length Z.of_nat Z.ltb Z.compare].
    cbn [within_timeout] in Hin. apply andb_prop in Hin as [Hnow Hin].
    rewrite Hnow.
    destruct (IH (S k) (now + latency net k + V2.FETCH_INTERVAL + lag net k) fuel)
      as (D & R & F & L).
    + intros j Hj. replace (S k + j)%nat with (k + S j)%nat by lia.
      apply Hempty. lia.
    + replace (S k + N)%nat with (k + S N)%nat by lia. exact Hcontent.
    + exact Hbody.
    + exact Hin.
    + lia.
    + cbn. unfold requests in R. rewrite R. repeat split; assumption.
Qed.

End Sessions.

(** ** Sessions that only meet empty bodies *)

Section Emit.

Variables (t : Z) (r : trace * status).

Lemma snd_emit e : snd (emit e r) = snd r.
Proof. reflexivity. Qed.

Lemma requests_emit_request u tok :
  requests (fst (emit (t, Request u tok) r)) = t :: requests (fst r).
Proof. reflexivity. Qed.

Lemma requests_emit_response n :
  requests (fst (emit (t, Response n) r)) = requests (fst r).
Proof. reflexivity. Qed.

Lemma requests_emit_timer d :
  requests (fst (emit (t, SetTimeout d) r)) = requests (fst r).
Proof. reflexivity. Qed.

Lemma responses_emit_request u tok :
  responses (fst (emit (t, Request u tok) r)) = responses (fst r).
Proof. reflexivity. Qed.

Lemma responses_emit_response n :
  responses (fst (emit (t, Response n) r)) = t :: responses (fst r).
Proof. reflexivity. Qed.

Lemma responses_emit_timer d :
  responses (fst (emit (t, SetTimeout d) r)) = responses (fst r).
Proof. reflexivity. Qed.

Lemma fired_emit_request u tok :
  fired (fst (emit (t, Request u tok) r)) = fired (fst r).
Proof. reflexivity. Qed.

Lemma fired_emit_response n :
  fired (fst (emit (t, Response n) r)) = fired (fst r).
Proof. reflexivity. Qed.

Lemma fired_emit_timer d :
  fired (fst (emit (t, SetTimeout d) r)) = fired (fst r).
Proof. reflexivity. Qed.

Lemma logged_emit_request u tok :
  logged (fst (emit (t, Request u tok) r)) = logged (fst r).
Proof. reflexivity. Qed.

Lemma logged_emit_response n :
  logged (fst (emit (t, Response n) r)) = logged (fst r).
Proof. reflexivity. Qed.

Lemma logged_emit_timer d :
  logged (fst (emit (t, SetTimeout d) r)) = logged (fst r).
Proof. reflexivity. Qed.

Lemma timeouts_emit_request u tok :
  timeouts (fst (emit (t, Request u tok) r)) = timeouts (fst r).
Proof. reflexivity. Qed.

Lemma timeouts_emit_response n :
  timeouts (fst (emit (t, Response n) r)) = timeouts (fst r).
Proof. reflexivity. Qed.

Lemma timeouts_emit_timer d :
  timeouts (fst (emit (t, SetTimeout d) r)) = d :: timeouts (fst r).
Proof. reflexivity. Qed.

End Emit.

Create Rewrite HintDb trace.

#[local] Hint Rewrite snd_emit
  requests_emit_request requests_emit_response requests_emit_timer
  responses_emit_request responses_emit_response responses_emit_timer
  fired_emit_request fired_emit_response fired_emit_timer
  logged_emit_request logged_emit_response logged_emit_timer
  timeouts_emit_request timeouts_emit_response timeouts_emit_timer : trace.

Lemma spaced_cons (d a b : Z) (rest : list Z) :
  a + d <= b -> spaced d (b :: rest) -> spaced d (a :: b :: rest).
Proof. intros H Sp. split; assumption. Qed.

Section Silence.

Variables (origin : string) (href : Z -> URI) (URI_toString : URI -> string).
Variable revive_other : JSON -> error + URI.
Variable net : Transport.
Variable identifier : string.
Hypothesis empty : forall k, body net k = Some EmptyString.
Hypothesis on_time : punctual net.

Lemma doFetch_enters (fuel k : nat) (now : Z) :
  exists rest,
    requests (fst (V1.doFetch origin revive_other net fuel identifier k now))
    = now :: rest.
Proof.
  destruct fuel; cbn [V1.doFetch];
    autorewrite with trace; eexists; reflexivity.
Qed.

Lemma periodicFetchCallback_enters (startTime : Z) (fuel k : nat) (now : Z) :
  exists rest,
    requests (fst (V2.periodicFetchCallback href URI_toString revive_other net
                     fuel identifier startTime k now))
    = now :: rest.
Proof.
  destruct fuel; cbn [V2.periodicFetchCallback];
    autorewrite with trace; eexists; reflexivity.
Qed.

(** Without a timeout the retries go on for as long as the loop is run. *)
Lemma doFetch_keeps_polling (fuel : nat) :
  forall (k : nat) (now : Z),
    let r := V1.doFetch origin revive_other net fuel identifier k now in
    snd r = Pending
    /\ List.length (requests (fst r)) = S fuel
    /\ fired (fst r) = [] /\ logged (fst r) = []
    /\ Forall (eq 500) (timeouts (fst r))
    /\ spaced 500 (requests (fst r)).
Proof.
  induction fuel as [|fuel IH]; intros k now;
    cbn [V1.doFetch].
  - cbn. repeat split; constructor.
  - rewrite empty. cbn [byteLength String.length Z.of_nat Z.eqb].
    set (next := now + latency net k + 500 + lag net k).
    destruct (IH (S k) next) as (P & R & F & L & T & Sp).
    destruct (doFetch_enters fuel (S k) next) as [rest E].
    autorewrite with trace. cbn [List.length].
    rewrite R.
    repeat split; try assumption.
    + constructor; [reflexivity|assumption].
    + rewrite E in Sp |- *. apply spaced_cons; [|exact Sp].
      destruct (on_time k). subst next. lia.
Qed.

(** With the timeout the retries stop within [m] intervals once at most
    [m] intervals are left before [startTime + FETCH_TIMEOUT]. *)
Lemma periodicFetchCallback_gives_up (startTime : Z) (m : nat) :
  forall (k : nat) (now : Z),
    startTime + V2.FETCH_TIMEOUT - now <= V2.FETCH_INTERVAL * Z.of_nat m ->
    exists n, (n <= m)%nat /\
      forall fuel, (n < fuel)%nat ->
        let r := V2.periodicFetchCallback href URI_toString revive_other net
               fuel identifier startTime k now in
        snd r = Done
        /\ List.length (requests (fst r)) = S n
        /\ fired (fst r) = [] /\ logged (fst r) = []
        /\ Forall (eq V2.FETCH_INTERVAL) (timeouts (fst r))
        /\ spaced V2.FETCH_INTERVAL (requests (fst r))
        /\ exists early final,
             responses (fst r) = (early ++ [final])%list
             /\ Forall (fun t => t - startTime < V2.FETCH_TIMEOUT) early
             /\ V2.FETCH_TIMEOUT <= final - startTime.
Proof.
  assert (stop : forall k now,
    (now + latency net k - startTime <? V2.FETCH_TIMEOUT) = false ->
    forall fuel, (0 < fuel)%nat ->
      let r := V2.periodicFetchCallback href URI_toString revive_other net
               fuel identifier startTime k now in
      snd r = Done
      /\ List.length (requests (fst r)) = 1%nat
      /\ fired (fst r) = [] /\ logged (fst r) = []
      /\ Forall (eq V2.FETCH_INTERVAL) (timeouts (fst r))
      /\ spaced V2.FETCH_INTERVAL (requests (fst r))
      /\ exists early final,
           responses (fst r) = (early ++ [final])%list
           /\ Forall (fun t => t - startTime < V2.FETCH_TIMEOUT) early
           /\ V2.FETCH_TIMEOUT <= final - startTime).
  { intros k now E fuel Hfuel. destruct fuel as [|fuel]; [lia|].
    cbn [V2.periodicFetchCallback].
    rewrite empty, E. cbn [byteLength String.length Z.of_nat Z.ltb Z.compare].
    cbn. repeat split; try constructor.
    exists [], (now + latency net k). repeat split; [constructor|].
    apply Z.ltb_ge in E. exact E. }
  induction m as [|m IH]; intros k now Hleft;
    destruct (now + latency net k - startTime <? V2.FETCH_TIMEOUT) eqn:E.
  - apply Z.ltb_lt in E. destruct (on_time k). lia.
  - exists 0%nat. split; [lia|]. apply stop, E.
  - set (next := now + latency net k + V2.FETCH_INTERVAL + lag net k).
    destruct (IH (S k) next) as (n & Hn & Hrun).
    { destruct (on_time k). subst next. unfold V2.FETCH_INTERVAL in *. lia. }
    exists (S n). split; [lia|]. intros fuel Hfuel.
    destruct fuel as [|fuel]; [lia|].
    destruct (Hrun fuel ltac:(lia))
      as (D & R & F & L & T & Sp & early & final & Q & B & A).
    destruct (periodicFetchCallback_enters startTime fuel (S k) next) as [rest X].
    cbn [V2.periodicFetchCallback].
    rewrite empty, E. cbn [byteLength String.length Z.of_nat Z.ltb Z.compare].
    fold next. autorewrite with trace. cbn [List.length].
    rewrite R. repeat split; try assumption.
    + constructor; [reflexivity|assumption].
    + rewrite X in Sp |- *. apply spaced_cons; [|exact Sp].
      destruct (on_time k). subst next. unfold V2.FETCH_INTERVAL. lia.
    + exists ((now + latency net k) :: early), final. rewrite Q.
      repeat split; [|exact A].
      constructor; [apply Z.ltb_lt, E|exact B].
  - exists 0%nat. split; [lia|]. apply stop, E.
Qed.

End Silence.






(** ** The poller *)

(** C1 (amended).  When the transport returns an empty body for the first N
    fetches and, on fetch N+1, a JSON array of URI-component records, the
    session started by [create] performs exactly N+1 fetches, fires exactly
    the URIs rebuilt from the records, logs nothing and is over (however long
    the event loop runs on) -- in the revision without a timeout always, in
    the revision with [FETCH_TIMEOUT] provided the elapsed time read after
    each of the N empty bodies is below [FETCH_TIMEOUT]. *)
Theorem poller_emits_after_empty_bodies
    (net : Transport) (N : nat) (payload : string) (records : list JSON)
    (revive_other : JSON -> error + URI) (identifier : string)
    (options : option IURLCreateOptions) (now : Z) (fuel : nat) :
  (forall k, (k < N)%nat -> body net k = Some EmptyString) ->
  body net N = Some payload ->
  JSON_parse payload = inr (JArray records) ->
  forallb is_UriComponents records = true ->
  (N < fuel)%nat ->
  (forall origin URI_parse,
      let r := snd (V1.create origin URI_parse revive_other net
                      fuel now identifier options) in
      snd r = Done /\ List.length (requests (fst r)) = S N
      /\ fired (fst r) = map revive_components records
      /\ logged (fst r) = [])
  /\ (forall href URI_toString,
      within_timeout net now N 0 now = true ->
      let r := snd (V2.create href URI_toString revive_other net
                      fuel now identifier options) in
      snd r = Done /\ List.length (requests (fst r)) = S N
      /\ fired (fst r) = map revive_components records
      /\ logged (fst r) = []).
Proof.
  intros Hempty Hpayload Hparse Hrecords Hfuel.
  assert (Hbody := parsed_not_empty _ _ Hparse).
  assert (Hfires := handle_content_records revive_other _ _ Hparse Hrecords).
  split.
  - intros origin URI_parse. cbn [V1.create snd].
    destruct (doFetch_reaches origin revive_other net identifier N payload
                0%nat now fuel)
      as (D & R & F & L); try assumption.
    rewrite Hfires, fires_map_Fire in F.
    rewrite Hfires, logs_map_Fire in L. repeat split; assumption.
  - intros href URI_toString Hin. cbn [V2.create snd].
    destruct (periodicFetchCallback_reaches href URI_toString revive_other net
                identifier now N payload 0%nat now fuel)
      as (D & R & F & L); try assumption.
    rewrite Hfires, fires_map_Fire in F.
    rewrite Hfires, logs_map_Fire in L. repeat split; assumption.
Qed.

(** The scenario of the spec: identifier abc123, three empty bodies, then the
    record of https://example.com/done on the fourth fetch. *)
Lemma poller_emits_after_empty_bodies_abc123 :
  let r := snd (V2.create sample_location sample_toString throws
                  (answers_after 3 done_payload) 10 0 "abc123" None) in
  List.length (requests (fst r)) = 4%nat /\ fired (fst r) = [done_uri].
Proof.
  destruct (poller_emits_after_empty_bodies (answers_after 3 done_payload) 3
              done_payload [done_json] throws "abc123" None 0 10) as [_ H].
  - intros k Hk. destruct k as [|[|[|k]]]; [reflexivity..|lia].
  - reflexivity.
  - vm_compute. reflexivity.
  - reflexivity.
  - lia.
  - destruct (H sample_location sample_toString eq_refl) as (_ & R & F & _).
    split; [exact R|exact F].
Defined.

(** Against C1 as first stated: with [FETCH_TIMEOUT] a first fetch that is
    empty and takes 400 seconds (more than five minutes) ends the session;
    the valid array the transport holds for the second fetch is never asked
    for. *)
Lemma timeout_precedes_second_fetch :
  let net := slow_start 400000 done_payload in
  let r := snd (V2.create sample_location sample_toString throws net
                  10 0 "abc123" None) in
  body net 0 = Some EmptyString
  /\ body net 1 = Some done_payload
  /\ JSON_parse done_payload = inr (JArray [done_json])
  /\ snd r = Done
  /\ List.length (requests (fst r)) = 1%nat
  /\ fired (fst r) = [].
Proof. vm_compute. repeat split. Qed.

(** C2 (amended).  When every body is empty (and neither a fetch nor a timer
    takes negative time), the session of the revision with [FETCH_TIMEOUT]
    retries with [setTimeout(..., FETCH_INTERVAL)], so that successive fetches
    lie at least [FETCH_INTERVAL] apart, and makes no fetch after the first
    body read at an elapsed time of [FETCH_TIMEOUT] or more: it is over after
    at most [FETCH_TIMEOUT / FETCH_INTERVAL + 1] fetches, has fired nothing
    and logged nothing.  The revision
    without a timeout retries every 500ms in the same silence but never
    stops: run for [fuel] bodies it has made [fuel + 1] fetches and is still
    pending. *)
Theorem silent_poll
    (net : Transport) (revive_other : JSON -> error + URI)
    (identifier : string) (options : option IURLCreateOptions) (now : Z) :
  (forall k, body net k = Some EmptyString) ->
  punctual net ->
  (forall href URI_toString,
      exists n, Z.of_nat n <= V2.FETCH_TIMEOUT / V2.FETCH_INTERVAL /\
        forall fuel, (n < fuel)%nat ->
          let r := snd (V2.create href URI_toString revive_other net
                          fuel now identifier options) in
          snd r = Done
          /\ List.length (requests (fst r)) = S n
          /\ fired (fst r) = [] /\ logged (fst r) = []
          /\ Forall (eq V2.FETCH_INTERVAL) (timeouts (fst r))
          /\ spaced V2.FETCH_INTERVAL (requests (fst r))
          /\ exists early final,
               responses (fst r) = (early ++ [final])%list
               /\ Forall (fun t => t - now < V2.FETCH_TIMEOUT) early
               /\ V2.FETCH_TIMEOUT <= final - now)
  /\ (forall origin URI_parse fuel,
      let r := snd (V1.create origin URI_parse revive_other net
                      fuel now identifier options) in
      snd r = Pending
      /\ List.length (requests (fst r)) = S fuel
      /\ fired (fst r) = [] /\ logged (fst r) = []
      /\ Forall (eq 500) (timeouts (fst r))
      /\ spaced 500 (requests (fst r))).
Proof.
  intros Hempty Hpunctual. split.
  - intros href URI_toString. cbn [V2.create snd].
    destruct (periodicFetchCallback_gives_up href URI_toString revive_other net
                identifier Hempty Hpunctual now 10 0%nat now)
      as (n & Hn & Hrun).
    + unfold V2.FETCH_TIMEOUT, V2.FETCH_INTERVAL. lia.
    + exists n. split; [|exact Hrun].
      change (V2.FETCH_TIMEOUT / V2.FETCH_INTERVAL) with 10. lia.
  - intros origin URI_parse fuel. cbn [V1.create snd].
    apply (doFetch_keeps_polling origin revive_other net identifier
             Hempty Hpunctual fuel 0%nat now).
Qed.

Lemma always_empty_punctual : punctual always_empty.
Proof. intros k. cbn. lia. Qed.

Lemma silent_poll_always_empty :
  exists n, Z.of_nat n <= V2.FETCH_TIMEOUT / V2.FETCH_INTERVAL /\
    snd (snd (V2.create sample_location sample_toString throws always_empty
                (S n) 0 "abc123" None)) = Done.
Proof.
  destruct (silent_poll always_empty throws "abc123" None 0
              (fun k => eq_refl) always_empty_punctual) as [H _].
  destruct (H sample_location sample_toString) as (n & Hn & Hrun).
  exists n. split; [exact Hn|].
  destruct (Hrun (S n) (Nat.lt_succ_diag_r n)) as (D & _). exact D.
Defined.

(** Against C2 as first stated: in the revision without a timeout no number
    of fetches is the last one. *)
Lemma doFetch_never_gives_up :
  ~ exists n : nat, forall fuel : nat,
      (List.length (requests (fst (V1.doFetch "https://vscode.example" throws
                                     always_empty fuel "abc123" 0 0)))
       <= n)%nat.
Proof.
  intros [n H]. specialize (H n).
  destruct (doFetch_keeps_polling "https://vscode.example" throws always_empty
              "abc123" (fun k => eq_refl) always_empty_punctual n 0%nat 0)
    as (_ & R & _).
  rewrite R in H. lia.
Qed.

(** C3.  [FETCH_INTERVAL] is 500ms; [FETCH_TIMEOUT], documented as five
    minutes, evaluates to five seconds: with a transport that answers at once
    a session makes its last fetch 5000ms after its start, and a payload
    ready for the twelfth fetch, 5500ms after the start, is never asked
    for. *)
Lemma FETCH_TIMEOUT_is_five_seconds :
  V2.FETCH_INTERVAL = 500
  /\ V2.FETCH_TIMEOUT = 5000
  /\ V2.FETCH_TIMEOUT <> 5 * 60 * 1000
  /\ let r := snd (V2.create sample_location sample_toString throws
                     (answers_after 11 done_payload) 700 0 "abc123" None) in
     snd r = Done
     /\ requests (fst r)
        = [0; 500; 1000; 1500; 2000; 2500; 3000; 3500; 4000; 4500; 5000]
     /\ fired (fst r) = [].
Proof. vm_compute. repeat split. discriminate. Qed.



(** Without that proviso the conclusion fails in the revision with
    [FETCH_TIMEOUT]: when eleven empty bodies come first, 500ms apart, the
    session is over after the eleventh and the malformed body is never asked
    for, so nothing is logged. *)
Lemma late_body_is_never_read :
  let r := snd (V2.create sample_location sample_toString throws
                  (answers_after 11 "{oops") 20 0 "abc123" None) in
  within_timeout (answers_after 11 "{oops") 0 11 0 0 = false
  /\ snd r = Done /\ List.length (requests (fst r)) = 11%nat
  /\ logged (fst r) = [].
Proof. vm_compute. repeat split. Qed.


(** ** The emitter *)

Lemma filter_unsubscribed (l : listener) (u : URI) (ls : list listener) :
  ~ In l ls ->
  filter (fun d : listener * URI => Nat.eqb (fst d) l) (map (fun l' => (l', u)) ls)
  = [].
Proof.
  induction ls as [|a ls IH]; [reflexivity|]. intros H. cbn.
  destruct (Nat.eqb_spec a l) as [->|_].
  - destruct H. left. reflexivity.
  - apply IH. intros I. apply H. right. exact I.
Qed.

Lemma filter_subscribed (l : listener) (u : URI) (ls : list listener) :
  NoDup ls -> In l ls ->
  filter (fun d : listener * URI => Nat.eqb (fst d) l) (map (fun l' => (l', u)) ls)
  = [(l, u)].
Proof.
  induction 1 as [|a ls Ha Hls IH]; [intros []|]. intros Hin. cbn.
  destruct (Nat.eqb_spec a l) as [->|Hne].
  - rewrite (filter_unsubscribed l u ls Ha). reflexivity.
  - destruct Hin as [->|Hin]; [congruence|]. apply IH, Hin.
Qed.

Lemma received_subscribed (l : listener) (ls : list listener) (tr : trace) :
  NoDup ls -> In l ls -> received l ls tr = fired tr.
Proof.
  intros Hnd Hin. unfold received, deliveries.
  induction (fired tr) as [|u us IH]; [reflexivity|].
  change (flat_map (fun u0 => map (fun l' => (l', u0)) ls) (u :: us))
    with (map (fun l' => (l', u)) ls
          ++ flat_map (fun u0 => map (fun l' => (l', u0)) ls) us)%list.
  rewrite filter_app, map_app, (filter_subscribed l u ls Hnd Hin).
  cbn [map snd app]. f_equal. exact IH.
Qed.

(** C7.  When the body read by a fetch parses as a JSON array of
    URI-component records, that fetch fires one event per record, in the
    order of the records, logs nothing, and every subscribed listener
    receives the rebuilt URIs in that same order; in both revisions. *)
Theorem callbacks_fire_in_order
    (net : Transport) (k : nat) (content : string) (records : list JSON)
    (revive_other : JSON -> error + URI) (identifier : string)
    (fuel : nat) (now : Z) :
  body net k = Some content ->
  JSON_parse content = inr (JArray records) ->
  forallb is_UriComponents records = true ->
  (forall origin,
      let tr := fst (V1.doFetch origin revive_other net (S fuel) identifier k now) in
      fired tr = map revive_components records
      /\ List.length (fired tr) = List.length records
      /\ logged tr = []
      /\ forall listeners l, NoDup listeners -> In l listeners ->
           received l listeners tr = map revive_components records)
  /\ (forall href URI_toString startTime,
      let tr := fst (V2.periodicFetchCallback href URI_toString revive_other net
                       (S fuel) identifier startTime k now) in
      fired tr = map revive_components records
      /\ List.length (fired tr) = List.length records
      /\ logged tr = []
      /\ forall listeners l, NoDup listeners -> In l listeners ->
           received l listeners tr = map revive_components records).
Proof.
  intros Hcontent Hparse Hrecords.
  assert (Hbody := parsed_not_empty _ _ Hparse).
  assert (Hfires := handle_content_records revive_other _ _ Hparse Hrecords).
  split.
  - intros origin.
    destruct (doFetch_reaches origin revive_other net identifier 0 content
                k now (S fuel))
      as (_ & _ & F & L).
    + intros j Hj. lia.
    + rewrite Nat.add_0_r. exact Hcontent.
    + exact Hbody.
    + lia.
    + rewrite Hfires, fires_map_Fire in F.
      rewrite Hfires, logs_map_Fire in L. cbv zeta.
      repeat split; [exact F| |exact L|].
      * rewrite F, !length_map. reflexivity.
      * intros listeners l Hnd Hin.
        rewrite (received_subscribed l listeners _ Hnd Hin). exact F.
  - intros href URI_toString startTime.
    destruct (periodicFetchCallback_reaches href URI_toString revive_other net
                identifier startTime 0 content k now (S fuel))
      as (_ & _ & F & L).
    + intros j Hj. lia.
    + rewrite Nat.add_0_r. exact Hcontent.
    + exact Hbody.
    + reflexivity.
    + lia.
    + rewrite Hfires, fires_map_Fire in F.
      rewrite Hfires, logs_map_Fire in L. cbv zeta.
      repeat split; [exact F| |exact L|].
      * rewrite F, !length_map. reflexivity.
      * intros listeners l Hnd Hin.
        rewrite (received_subscribed l listeners _ Hnd Hin). exact F.
Qed.

Lemma callbacks_fire_in_order_twice :
  received 7%nat [3%nat; 7%nat]
    (fst (V1.doFetch "https://vscode.example" throws
            (answers_after 0 ("[" ++ done_record ++ "," ++ "{}" ++ "]"))
            1 "abc123" 0 0))
  = [done_uri; mkURI "" "" "" "" ""].
Proof.
  destruct (callbacks_fire_in_order
              (answers_after 0 ("[" ++ done_record ++ "," ++ "{}" ++ "]")) 0
              ("[" ++ done_record ++ "," ++ "{}" ++ "]")
              [done_json; JObject []] throws "abc123" 0 0) as [H _].
  - reflexivity.
  - vm_compute. reflexivity.
  - reflexivity.
  - destruct (H "https://vscode.example") as (_ & _ & _ & R).
    apply (R [3%nat; 7%nat] 7%nat).
    + repeat constructor; cbn; intuition discriminate.
    + right. left. reflexivity.
Defined.

(** ** How a session ends *)

Section Ending.

Variables (origin : string) (href : Z -> URI) (URI_toString : URI -> string).
Variable revive_other : JSON -> error + URI.
Variable net : Transport.
Variable identifier : string.

Lemma empty_byteLength (content : string) :
  byteLength content = 0 -> content = EmptyString.
Proof.
  destruct content; [reflexivity|]. unfold byteLength. cbn. lia.
Qed.

Lemma doFetch_ended (fuel : nat) :
  forall (k : nat) (now : Z),
    let r := V1.doFetch origin revive_other net fuel identifier k now in
    snd r = Done ->
    exists n, (n < fuel)%nat
      /\ List.length (requests (fst r)) = S n
      /\ (forall j, (j < n)%nat -> body net (k + j) = Some EmptyString)
      /\ (body net (k + n) = None
          \/ exists content,
               body net (k + n) = Some content /\ content <> EmptyString).
Proof.
  induction fuel as [|fuel IH]; intros k now; cbn [V1.doFetch];
    [discriminate|].
  destruct (body net k) as [content|] eqn:B0.
  - destruct (byteLength content =? 0) eqn:E; autorewrite with trace.
    + intros D. destruct (IH _ _ D) as (n & Hn & R & B & A).
      apply Z.eqb_eq, empty_byteLength in E. subst content.
      exists (S n). repeat split.
      * lia.
      * cbn [List.length]. rewrite R. reflexivity.
      * intros [|j] Hj; [rewrite Nat.add_0_r; exact B0|].
        replace (k + S j)%nat with (S k + j)%nat by lia. apply B. lia.
      * replace (k + S n)%nat with (S k + n)%nat by lia. exact A.
    + intros _. exists 0%nat.
      destruct (callbacks_requests (now + latency net k) _
                  (handle_content_callbacks revive_other content))
        as (R & _).
      cbn [fst]. rewrite R. repeat split.
      * lia.
      * intros j Hj. lia.
      * right. exists content. rewrite Nat.add_0_r. split; [exact B0|].
        intros E0. rewrite E0 in E. discriminate.
  - intros _. exists 0%nat. repeat split.
    + lia.
    + intros j Hj. lia.
    + left. rewrite Nat.add_0_r. exact B0.
Qed.

Lemma periodicFetchCallback_ended (startTime : Z) (fuel : nat) :
  forall (k : nat) (now : Z),
    let r := V2.periodicFetchCallback href URI_toString revive_other net
               fuel identifier startTime k now in
    snd r = Done ->
    exists n, (n < fuel)%nat
      /\ List.length (requests (fst r)) = S n
      /\ (forall j, (j < n)%nat ->
            body net (k + j) = Some EmptyString
            /\ nth j (responses (fst r)) 0 - startTime < V2.FETCH_TIMEOUT)
      /\ (body net (k + n) = None
          \/ (exists content,
                body net (k + n) = Some content /\ content <> EmptyString)
          \/ (body net (k + n) = Some EmptyString
              /\ V2.FETCH_TIMEOUT <= nth n (responses (fst r)) 0 - startTime)).
Proof.
  induction fuel as [|fuel IH]; intros k now; cbn [V2.periodicFetchCallback];
    [discriminate|].
  destruct (body net k) as [content|] eqn:B0.
  - destruct (0 <? byteLength content) eqn:E.
    + intros _. exists 0%nat. autorewrite with trace.
      destruct (callbacks_requests (now + latency net k) _
                  (handle_content_callbacks revive_other content))
        as (R & _).
      cbn [fst]. rewrite R. repeat split.
      * lia.
      * lia.
      * lia.
      * right. left. exists content. rewrite Nat.add_0_r. split; [exact B0|].
        intros E0. rewrite E0 in E. discriminate.
    + assert (E0 : content = EmptyString).
      { apply Z.ltb_ge in E. apply empty_byteLength.
        assert (N := Zle_0_nat (String.length content)).
        unfold byteLength in *. lia. }
      subst content.
      destruct (now + latency net k - startTime <? V2.FETCH_TIMEOUT) eqn:T;
        autorewrite with trace.
      * intros D. destruct (IH _ _ D) as (n & Hn & R & B & A).
        exists (S n). repeat split.
        -- lia.
        -- cbn [List.length]. rewrite R. reflexivity.
        -- destruct j as [|j]; [rewrite Nat.add_0_r; exact B0|].
           replace (k + S j)%nat with (S k + j)%nat by lia. apply B. lia.
        -- destruct j as [|j]; [cbn [nth]; apply Z.ltb_lt, T|].
           cbn [nth]. apply B. lia.
        -- replace (k + S n)%nat with (S k + n)%nat by lia. cbn [nth]. exact A.
      * intros _. exists 0%nat. cbn. repeat split; try lia.
        right. right. rewrite Nat.add_0_r. split; [exact B0|].
        apply Z.ltb_ge in T. exact T.
  - intros _. exists 0%nat. repeat split; try (cbn; lia).
    left. rewrite Nat.add_0_r. exact B0.
Qed.

Lemma doFetch_no_token (fuel : nat) :
  forall (k : nat) (now : Z),
    Forall uses_no_token
      (fst (V1.doFetch origin revive_other net fuel identifier k now)).
Proof.
  induction fuel as [|fuel IH]; intros k now; cbn [V1.doFetch].
  - repeat constructor.
  - destruct (body net k) as [content|]; [|repeat constructor].
    destruct (byteLength content =? 0).
    + repeat (constructor; [exact I || reflexivity|]). apply IH.
    + repeat (constructor; [exact I || reflexivity|]).
      apply callbacks_requests, handle_content_callbacks.
Qed.

Lemma periodicFetchCallback_no_token (startTime : Z) (fuel : nat) :
  forall (k : nat) (now : Z),
    Forall uses_no_token
      (fst (V2.periodicFetchCallback href URI_toString revive_other net
              fuel identifier startTime k now)).
Proof.
  induction fuel as [|fuel IH]; intros k now; cbn [V2.periodicFetchCallback].
  - repeat constructor.
  - destruct (body net k) as [content|]; [|repeat constructor].
    destruct (0 <? byteLength content).
    + repeat (constructor; [exact I || reflexivity|]).
      apply callbacks_requests, handle_content_callbacks.
    + destruct (now + latency net k - startTime <? V2.FETCH_TIMEOUT).
      * repeat (constructor; [exact I || reflexivity|]). apply IH.
      * repeat constructor.
Qed.

End Ending.

(** C8 (amended).  A fetch that reads an empty body -- in the revision with a
    timeout, at an elapsed time below [FETCH_TIMEOUT] -- always schedules the
    next fetch; a fetch whose request or body fails ends the session on the
    spot, with no retry and nothing logged; a session that is over has read
    empty bodies (below the timeout) up to a last fetch that failed, or read
    a non-empty body, or, in the revision with a timeout, read an empty body
    at an elapsed time of [FETCH_TIMEOUT] or more; and every request is made
    with [CancellationToken.None]. *)
Theorem session_ends_on_body_timeout_or_failure
    (net : Transport) (revive_other : JSON -> error + URI)
    (identifier : string) (fuel k : nat) (now : Z) :
  let read := now + latency net k in
  (forall origin,
      let run := V1.doFetch origin revive_other net in
      (body net k = Some EmptyString ->
       run (S fuel) identifier k now
       = emit (now, Request (V1.fetch_url origin identifier) CancellationToken_None)
           (emit (read, Response 0)
              (emit (read, SetTimeout 500)
                 (run fuel identifier (S k) (read + 500 + lag net k)))))
      /\ (body net k = None ->
          run (S fuel) identifier k now
          = ([(now, Request (V1.fetch_url origin identifier)
                            CancellationToken_None);
              (read, Rejected)], Done))
      /\ (snd (run fuel identifier k now) = Done ->
          exists n, (n < fuel)%nat
            /\ List.length (requests (fst (run fuel identifier k now))) = S n
            /\ (forall j, (j < n)%nat -> body net (k + j) = Some EmptyString)
            /\ (body net (k + n) = None
                \/ exists content,
                     body net (k + n) = Some content
                     /\ content <> EmptyString))
      /\ Forall uses_no_token (fst (run fuel identifier k now)))
  /\ (forall href URI_toString startTime,
      let run := V2.periodicFetchCallback href URI_toString revive_other net in
      (body net k = Some EmptyString ->
       read - startTime < V2.FETCH_TIMEOUT ->
       run (S fuel) identifier startTime k now
       = emit (now, Request (V2.fetch_url href URI_toString now identifier)
                      CancellationToken_None)
           (emit (read, Response 0)
              (emit (read, SetTimeout V2.FETCH_INTERVAL)
                 (run fuel identifier startTime (S k)
                    (read + V2.FETCH_INTERVAL + lag net k)))))
      /\ (body net k = None ->
          run (S fuel) identifier startTime k now
          = ([(now, Request (V2.fetch_url href URI_toString now identifier)
                            CancellationToken_None);
              (read, Rejected)], Done))
      /\ (snd (run fuel identifier startTime k now) = Done ->
          let tr := fst (run fuel identifier startTime k now) in
          exists n, (n < fuel)%nat
            /\ List.length (requests tr) = S n
            /\ (forall j, (j < n)%nat ->
                  body net (k + j) = Some EmptyString
                  /\ nth j (responses tr) 0 - startTime < V2.FETCH_TIMEOUT)
            /\ (body net (k + n) = None
                \/ (exists content,
                      body net (k + n) = Some content
                      /\ content <> EmptyString)
                \/ (body net (k + n) = Some EmptyString
                    /\ V2.FETCH_TIMEOUT
                       <= nth n (responses tr) 0 - startTime)))
      /\ Forall uses_no_token (fst (run fuel identifier startTime k now))).
Proof.
  cbv zeta. split.
  - intros origin. split; [|split; [|split]].
    + intros E. cbn [V1.doFetch]. rewrite E. reflexivity.
    + intros E. cbn [V1.doFetch]. rewrite E. reflexivity.
    + apply doFetch_ended.
    + apply doFetch_no_token.
  - intros href URI_toString startTime. split; [|split; [|split]].
    + intros E T. cbn [V2.periodicFetchCallback]. rewrite E.
      apply Z.ltb_lt in T. cbn [byteLength String.length Z.of_nat Z.ltb Z.compare].
      rewrite T. reflexivity.
    + intros E. cbn [V2.periodicFetchCallback]. rewrite E. reflexivity.
    + apply periodicFetchCallback_ended.
    + apply periodicFetchCallback_no_token.
Qed.

Lemma session_ends_on_body_timeout_or_failure_retry :
  V2.periodicFetchCallback sample_location sample_toString throws always_empty
    1 "abc123" 0 0 0
  = emit (0, Request (V2.fetch_url sample_location sample_toString 0 "abc123")
               CancellationToken_None)
      (emit (0, Response 0)
         (emit (0, SetTimeout V2.FETCH_INTERVAL)
            (V2.periodicFetchCallback sample_location sample_toString throws
               always_empty 0 "abc123" 0 1 500))).
Proof.
  destruct (session_ends_on_body_timeout_or_failure always_empty throws
              "abc123" 0 0 0)
    as [_ H].
  destruct (H sample_location sample_toString 0) as [R _].
  apply R; reflexivity.
Defined.

(** Against C8 as first stated: a session whose second request fails is over
    after that request, in both revisions, although the one body it has read
    was empty and, 500ms after the start, no timeout is reached. *)
Lemma failed_request_ends_session :
  let net := fails_after 1 in
  let r1 := V1.doFetch "https://vscode.example" throws net 10 "abc123" 0 0 in
  let r2 := snd (V2.create sample_location sample_toString throws net
                   10 0 "abc123" None) in
  body net 0 = Some EmptyString /\ body net 1 = None
  /\ (snd r1 = Done /\ requests (fst r1) = [0; 500] /\ responses (fst r1) = [0]
      /\ timeouts (fst r1) = [500] /\ logged (fst r1) = [])
  /\ (snd r2 = Done /\ requests (fst r2) = [0; 500] /\ responses (fst r2) = [0]
      /\ timeouts (fst r2) = [500] /\ logged (fst r2) = []).
Proof. vm_compute. repeat split. Qed.

(** ** Strings and query fields *)

Lemma append_assoc (a b c : string) : (a ++ b) ++ c = a ++ b ++ c.
Proof. induction a as [|x a IH]; cbn; [reflexivity|]. rewrite IH. reflexivity. Qed.

Lemma append_empty (a : string) : a ++ "" = a.
Proof. induction a as [|x a IH]; cbn; [reflexivity|]. rewrite IH. reflexivity. Qed.

Lemma count_char_app (c : ascii) (a b : string) :
  count_char c (a ++ b) = (count_char c a + count_char c b)%nat.
Proof. induction a as [|x a IH]; cbn; [reflexivity|]. rewrite IH. lia. Qed.


Lemma contains_char_none (c : ascii) (s : string) :
  contains_char c s = false <-> count_char c s = 0%nat.
Proof.
  unfold contains_char. destruct (Nat.eqb_spec (count_char c s) 0); cbn; split;
    intros; try lia; try discriminate; reflexivity.
Qed.

Lemma split_on_plain (c : ascii) (s : string) :
  count_char c s = 0%nat -> split_on c s = [s].
Proof.
  induction s as [|x s IH]; [reflexivity|]. cbn.
  destruct (Ascii.eqb x c); [discriminate|]. intros H. rewrite (IH H). reflexivity.
Qed.

Lemma split_on_sep (c : ascii) (a b : string) :
  count_char c a = 0%nat -> split_on c (a ++ String c b) = a :: split_on c b.
Proof.
  induction a as [|x a IH]; cbn.
  - rewrite Ascii.eqb_refl. reflexivity.
  - destruct (Ascii.eqb x c); [discriminate|]. intros H. rewrite (IH H). reflexivity.
Qed.


Lemma list_sum_cons (a : nat) (l : list nat) :
  list_sum (a :: l) = (a + list_sum l)%nat.
Proof. reflexivity. Qed.

Lemma split_on_other (c d : ascii) (s : string) :
  Ascii.eqb c d = false ->
  list_sum (map (count_char d) (split_on c s)) = count_char d s.
Proof.
  intros Hcd. induction s as [|x s IH]; [reflexivity|].
  cbn [split_on count_char].
  destruct (Ascii.eqb_spec x c) as [->|Hx].
  - cbn [map]. rewrite list_sum_cons, Hcd, IH. reflexivity.
  - destruct (split_on c s) as [|w ws]; cbn [map] in *;
      rewrite ?list_sum_cons in *; cbn [count_char list_sum fold_right] in *;
      destruct (Ascii.eqb x d); lia.
Qed.


Lemma encoded_byte_count (c x : ascii) (r : string) :
  c = "&"%char \/ c = "="%char ->
  count_char c (if uri_unescaped x then String x r else percent_byte x r)
  = count_char c r.
Proof.
  intros [->| ->]; destruct x as [[] [] [] [] [] [] [] []]; reflexivity.
Qed.

Lemma encoded_has_no_delimiter (c : ascii) (s : string) :
  c = "&"%char \/ c = "="%char ->
  count_char c (encodeURIComponent s) = 0%nat.
Proof.
  intros Hc. induction s as [|x s IH]; [reflexivity|].
  cbn [encodeURIComponent].
  assert (E := encoded_byte_count c x (encodeURIComponent s) Hc).
  destruct (uri_unescaped x); rewrite E; exact IH.
Qed.

Lemma encoded_has_no_hash (s : string) :
  count_char "#" (encodeURIComponent s) = 0%nat.
Proof.
  induction s as [|x s IH]; [reflexivity|]. cbn [encodeURIComponent].
  assert (E : count_char "#" (if uri_unescaped x
                              then String x (encodeURIComponent s)
                              else percent_byte x (encodeURIComponent s))
              = count_char "#" (encodeURIComponent s))
    by (destruct x as [[] [] [] [] [] [] [] []]; reflexivity).
  destruct (uri_unescaped x); rewrite E; exact IH.
Qed.

(** ** Reading a query *)

Lemma cut_pair_sep (k v : string) :
  count_char "=" k = 0%nat -> cut_pair (k ++ String "=" v) = (k, v).
Proof.
  induction k as [|x k IH]; cbn; [reflexivity|].
  destruct (Ascii.eqb x "="); [discriminate|]. intros H. rewrite (IH H).
  reflexivity.
Qed.


Lemma query_of_sep (a b : string) :
  count_char "?" a = 0%nat -> count_char "#" a = 0%nat ->
  query_of (a ++ String "?" b) = b.
Proof.
  induction a as [|x a IH]; cbn; [reflexivity|].
  destruct (Ascii.eqb x "?"); [discriminate|].
  destruct (Ascii.eqb x "#"); [discriminate|]. exact IH.
Qed.

Lemma before_hash_plain (s : string) :
  count_char "#" s = 0%nat -> before_hash s = s.
Proof.
  induction s as [|x s IH]; cbn; [reflexivity|].
  destruct (Ascii.eqb x "#"); [discriminate|]. intros H. rewrite (IH H).
  reflexivity.
Qed.

Lemma before_hash_app (a b : string) :
  count_char "#" a = 0%nat -> before_hash (a ++ b) = a ++ before_hash b.
Proof.
  induction a as [|x a IH]; cbn; [reflexivity|].
  destruct (Ascii.eqb x "#"); [discriminate|]. intros H. rewrite (IH H).
  reflexivity.
Qed.

Lemma before_hash_cut (a b : string) :
  (0 < count_char "#" a)%nat -> before_hash (a ++ b) = before_hash a.
Proof.
  induction a as [|x a IH]; cbn; [lia|].
  destruct (Ascii.eqb x "#"); [reflexivity|]. intros H. rewrite (IH H).
  reflexivity.
Qed.

Lemma before_hash_count (c : ascii) (s : string) :
  (count_char c (before_hash s) <= count_char c s)%nat.
Proof.
  induction s as [|x s IH]; cbn; [lia|].
  destruct (Ascii.eqb x "#"); cbn; lia.
Qed.

(** The query of the text [<a>?<qs>], where [a] holds neither [?] nor [#]. *)
Lemma text_query_sep (a qs : string) :
  count_char "?" a = 0%nat -> count_char "#" a = 0%nat ->
  text_query (a ++ String "?" qs) = before_hash qs.
Proof.
  intros Hq Hh. unfold text_query. rewrite (query_of_sep a qs Hq Hh).
  reflexivity.
Qed.



(** ** The callback URI *)

Lemma fold_left_flatten (g : string * string -> string)
    (pairs : list (string * string)) :
  forall acc,
    fold_left (fun query kv => query ++ g kv) pairs acc
    = acc ++ flatten (map g pairs).
Proof.
  induction pairs as [|kv pairs IH]; intros acc; cbn [fold_left map flatten].
  - symmetry. apply append_empty.
  - rewrite IH, append_assoc. reflexivity.
Qed.

Lemma doCreateUri_query_text (identifier : string) (payload : V2.Map) :
  V2.doCreateUri_query identifier (Some payload)
  = query_text verbatim identifier payload.
Proof.
  unfold V2.doCreateUri_query, query_text, verbatim, V2.QUERY_KEYS.ID.
  rewrite (fold_left_flatten (fun kv => "&" ++ fst kv ++ "=" ++ snd kv)).
  reflexivity.
Qed.

Lemma create_payload_provided (options : option IURLCreateOptions) :
  V2.create_payload options = provided options.
Proof.
  unfold V2.create_payload, provided.
  destruct (truthy (opt_path (destructure options))),
           (truthy (opt_query (destructure options))),
           (truthy (opt_fragment (destructure options))); reflexivity.
Qed.

Lemma baseAppUriRaw_text (origin identifier : string)
    (options : option IURLCreateOptions) :
  V1.baseAppUriRaw origin identifier options
  = origin ++ "/callback?"
    ++ query_text encodeURIComponent identifier (provided options).
Proof.
  unfold V1.baseAppUriRaw, query_text, provided.
  destruct (truthy (opt_path (destructure options))),
           (truthy (opt_query (destructure options))),
           (truthy (opt_fragment (destructure options)));
    cbn [app map flatten fst snd]; rewrite ?append_assoc, ?append_empty;
    cbn [append]; rewrite ?append_assoc; reflexivity.
Qed.

Lemma split_segments (c : ascii) (bodies : list string) :
  forall a,
    count_char c a = 0%nat ->
    Forall (fun b => count_char c b = 0%nat) bodies ->
    split_on c (a ++ flatten (map (String c) bodies)) = a :: bodies.
Proof.
  induction bodies as [|b bs IH]; intros a Ha Hbs; cbn [map flatten].
  - rewrite append_empty. apply split_on_plain, Ha.
  - inversion Hbs as [|? ? Hb Hbs']; subst.
    change (String c b ++ flatten (map (String c) bs))
      with (String c (b ++ flatten (map (String c) bs))).
    rewrite (split_on_sep c a _ Ha), (IH b Hb Hbs'). reflexivity.
Qed.

Lemma provided_keys_plain (options : option IURLCreateOptions) :
  Forall plain_key (provided options).
Proof.
  unfold provided.
  destruct (truthy (opt_path (destructure options))),
           (truthy (opt_query (destructure options))),
           (truthy (opt_fragment (destructure options)));
    repeat constructor.
Qed.

Lemma provided_keys_no_hash (options : option IURLCreateOptions) :
  Forall (fun kv => count_char "#" (fst kv) = 0%nat) (provided options).
Proof.
  unfold provided.
  destruct (truthy (opt_path (destructure options))),
           (truthy (opt_query (destructure options))),
           (truthy (opt_fragment (destructure options)));
    repeat constructor.
Qed.

Lemma provided_keys (options : option IURLCreateOptions) (key : string) :
  In key (map fst (provided options)) ->
  (key = "vscode-path" /\ truthy (opt_path (destructure options)) = true)
  \/ (key = "vscode-query" /\ truthy (opt_query (destructure options)) = true)
  \/ (key = "vscode-fragment"
      /\ truthy (opt_fragment (destructure options)) = true).
Proof.
  unfold provided.
  destruct (truthy (opt_path (destructure options))),
           (truthy (opt_query (destructure options))),
           (truthy (opt_fragment (destructure options)));
    cbn; intuition.
Qed.

(** The pieces and the pairs of a query whose identifier and values hold
    no [&]. *)
Lemma query_text_pieces (enc : string -> string) (identifier : string)
    (pairs : list (string * string)) :
  Forall plain_key pairs ->
  Forall (fun kv => count_char "&" (enc (snd kv)) = 0%nat) pairs ->
  count_char "&" identifier = 0%nat ->
  split_on "&" (query_text enc identifier pairs)
  = ("vscode-id=" ++ identifier)
    :: map (fun kv => fst kv ++ "=" ++ enc (snd kv)) pairs.
Proof.
  intros Hkeys Hvalues Hid. unfold query_text. rewrite <- append_assoc.
  replace (map (fun kv => "&" ++ fst kv ++ "=" ++ enc (snd kv)) pairs)
    with (map (String "&") (map (fun kv => fst kv ++ "=" ++ enc (snd kv)) pairs))
    by (rewrite map_map; reflexivity).
  apply split_segments.
  - rewrite count_char_app. cbn. exact Hid.
  - apply Forall_forall. intros b Hb. apply in_map_iff in Hb.
    destruct Hb as (kv & <- & Hin).
    rewrite Forall_forall in Hkeys, Hvalues.
    destruct (Hkeys kv Hin) as [Hamp _].
    rewrite !count_char_app, Hamp, (Hvalues kv Hin). reflexivity.
Qed.

Lemma query_text_pairs (enc : string -> string) (identifier : string)
    (pairs : list (string * string)) :
  Forall plain_key pairs ->
  Forall (fun kv => count_char "&" (enc (snd kv)) = 0%nat) pairs ->
  count_char "&" identifier = 0%nat ->
  query_pairs (query_text enc identifier pairs)
  = ("vscode-id", identifier) :: map (fun kv => (fst kv, enc (snd kv))) pairs.
Proof.
  intros Hkeys Hvalues Hid. unfold query_pairs.
  rewrite (query_text_pieces enc identifier pairs Hkeys Hvalues Hid).
  cbn [map].
  change ("vscode-id=" ++ identifier) with ("vscode-id" ++ String "=" identifier).
  rewrite (cut_pair_sep "vscode-id" identifier eq_refl). f_equal.
  rewrite map_map. apply map_ext_in. intros kv Hin.
  rewrite Forall_forall in Hkeys. destruct (Hkeys kv Hin) as [_ Heq].
  apply (cut_pair_sep (fst kv) (enc (snd kv)) Heq).
Qed.

Lemma encoded_values_plain (pairs : list (string * string)) :
  Forall (fun kv => count_char "&" (encodeURIComponent (snd kv)) = 0%nat) pairs.
Proof.
  apply Forall_forall. intros kv _. apply encoded_has_no_delimiter.
  left. reflexivity.
Qed.

Lemma tail_no_hash (pairs : list (string * string)) :
  Forall (fun kv => count_char "#" (fst kv) = 0%nat) pairs ->
  count_char "#"
    (flatten (map (fun kv => "&" ++ fst kv ++ "=" ++ encodeURIComponent (snd kv))
                  pairs)) = 0%nat.
Proof.
  induction 1 as [|kv pairs Hk _ IH]; [reflexivity|].
  cbn [map flatten]. rewrite !count_char_app, Hk, encoded_has_no_hash, IH.
  reflexivity.
Qed.


(** The text [create] builds, cut at its [?]. *)
Lemma baseAppUriRaw_query (origin identifier : string)
    (options : option IURLCreateOptions) :
  count_char "?" origin = 0%nat -> count_char "#" origin = 0%nat ->
  text_query (V1.baseAppUriRaw origin identifier options)
  = before_hash (query_text encodeURIComponent identifier (provided options)).
Proof.
  intros Ho Hh. rewrite baseAppUriRaw_text.
  change (origin ++ "/callback?" ++
          query_text encodeURIComponent identifier (provided options))
    with (origin ++ "/callback" ++ String "?"
            (query_text encodeURIComponent identifier (provided options))).
  rewrite <- append_assoc.
  apply text_query_sep; rewrite count_char_app; [rewrite Ho|rewrite Hh];
    reflexivity.
Qed.


Lemma query_text_no_hash (identifier : string) (options : option IURLCreateOptions) :
  count_char "#" identifier = 0%nat ->
  count_char "#" (query_text encodeURIComponent identifier (provided options))
  = 0%nat.
Proof.
  intros Hid. unfold query_text.
  rewrite !count_char_app, Hid, (tail_no_hash _ (provided_keys_no_hash options)).
  reflexivity.
Qed.

Lemma query_text_keys (enc : string -> string) (identifier : string)
    (pairs : list (string * string)) :
  Forall plain_key pairs ->
  Forall (fun kv => count_char "&" (enc (snd kv)) = 0%nat) pairs ->
  count_char "&" identifier = 0%nat ->
  query_keys (query_text enc identifier pairs) = "vscode-id" :: map fst pairs.
Proof.
  intros Hkeys Hvalues Hid. unfold query_keys.
  rewrite (query_text_pairs enc identifier pairs Hkeys Hvalues Hid).
  cbn [map fst]. rewrite map_map. reflexivity.
Qed.

(** A [#] in the identifier ends the query of the text there. *)
Lemma cut_query_pairs (identifier tail : string) :
  count_char "&" identifier = 0%nat ->
  (0 < count_char "#" identifier)%nat ->
  query_pairs (before_hash ("vscode-id=" ++ identifier ++ tail))
  = [("vscode-id", before_hash identifier)].
Proof.
  intros Hamp Hhash. rewrite <- append_assoc.
  rewrite before_hash_cut by (rewrite count_char_app; cbn; exact Hhash).
  rewrite (before_hash_app "vscode-id=" identifier eq_refl).
  unfold query_pairs. rewrite split_on_plain.
  - cbn [map].
    change ("vscode-id=" ++ before_hash identifier)
      with ("vscode-id" ++ String "=" (before_hash identifier)).
    rewrite (cut_pair_sep "vscode-id" _ eq_refl). reflexivity.
  - rewrite count_char_app. assert (H := before_hash_count "&" identifier).
    cbn. lia.
Qed.

(** The keys of the query of the text [create] builds are [vscode-id] and
    keys of non-empty options, when the identifier holds no [&]. *)
Lemma baseAppUriRaw_keys (origin identifier : string)
    (options : option IURLCreateOptions) (key : string) :
  count_char "?" origin = 0%nat -> count_char "#" origin = 0%nat ->
  count_char "&" identifier = 0%nat ->
  In key (query_keys (text_query (V1.baseAppUriRaw origin identifier options))) ->
  key = "vscode-id" \/ In key (map fst (provided options)).
Proof.
  intros Hq Hh Hamp. rewrite (baseAppUriRaw_query origin identifier options Hq Hh).
  destruct (count_char "#" identifier) as [|n] eqn:Hhash.
  - rewrite (before_hash_plain _ (query_text_no_hash identifier options Hhash)).
    rewrite (query_text_keys encodeURIComponent identifier (provided options)
               (provided_keys_plain options)
               (encoded_values_plain (provided options)) Hamp).
    cbn [In]. intros [<-|H]; [left; reflexivity|right; exact H].
  - unfold query_keys, query_text.
    rewrite (cut_query_pairs identifier _ Hamp) by lia.
    cbn. intros [<-|[]]. left. reflexivity.
Qed.






(** C5 (amended).  In the revision without [doCreateUri], [create] returns the
    URI parsed from the text [<origin>/callback?vscode-id=<identifier>]
    followed, for each non-empty option in the order path, query, fragment,
    by [&<key>=<value>] with the value percent-encoded so that decoding it
    yields the original.  For an origin without [?] and [#] and an
    identifier that holds neither [&] nor [#], the query of that text (what
    follows its first [?], up to the next [#]), cut at [&] and at the first
    [=] of each piece, is exactly the pair of [vscode-id] and the identifier
    followed by the pairs of the keys of the non-empty options and their
    encoded values, in that order.  In the revision with [doCreateUri] the
    URI is the location read at the call with the path [/callback] and the
    query [vscode-id=<identifier>] followed by [&<key>=<value>] for the same
    options, the values joined as they are, not encoded; when neither the
    identifier nor a value holds [&], its pairs are exactly the pair of
    [vscode-id] and the identifier followed by the non-empty options under
    their keys. *)
Theorem callback_uri_query
    (origin : string) (URI_parse : string -> URI) (href : Z -> URI)
    (URI_toString : URI -> string) (revive_other : JSON -> error + URI)
    (net : Transport) (fuel : nat) (now : Z) (identifier : string)
    (options : option IURLCreateOptions) :
  count_char "?" origin = 0%nat ->
  count_char "#" origin = 0%nat ->
  let raw := V1.baseAppUriRaw origin identifier options in
  let uri := fst (V2.create href URI_toString revive_other net
                    fuel now identifier options) in
  fst (V1.create origin URI_parse revive_other net fuel now identifier options)
  = URI_parse raw
  /\ raw = origin ++ "/callback?"
           ++ query_text encodeURIComponent identifier (provided options)
  /\ Forall (fun kv => decodeURIComponent (encodeURIComponent (snd kv))
                       = Some (snd kv))
            (provided options)
  /\ (contains_char "&" identifier = false ->
      contains_char "#" identifier = false ->
      query_pairs (text_query raw)
      = ("vscode-id", identifier)
        :: map (fun kv => (fst kv, encodeURIComponent (snd kv)))
               (provided options))
  /\ scheme uri = scheme (href now) /\ authority uri = authority (href now)
  /\ path uri = "/callback"
  /\ query uri = query_text verbatim identifier (provided options)
  /\ (contains_char "&" identifier = false ->
      Forall (fun kv => contains_char "&" (snd kv) = false) (provided options) ->
      query_pairs (query uri) = ("vscode-id", identifier) :: provided options).
Proof.
  intros Hq Hh. cbv zeta.
  assert (Q : query (fst (V2.create href URI_toString revive_other net
                            fuel now identifier options))
              = query_text verbatim identifier (provided options)).
  { cbn [V2.create fst V2.doCreateUri URI_with query].
    rewrite doCreateUri_query_text, create_payload_provided. reflexivity. }
  split; [reflexivity|]. split; [apply baseAppUriRaw_text|].
  split; [apply Forall_forall; intros kv _; apply decode_encode|].
  split; [|repeat split; [exact Q|]].
  - intros Hamp Hhash. apply contains_char_none in Hamp, Hhash.
    rewrite (baseAppUriRaw_query origin identifier options Hq Hh).
    rewrite (before_hash_plain _ (query_text_no_hash identifier options Hhash)).
    apply query_text_pairs;
      [apply provided_keys_plain|apply encoded_values_plain|exact Hamp].
  - intros Hamp Hvalues. apply contains_char_none in Hamp. rewrite Q.
    rewrite (query_text_pairs verbatim identifier (provided options)
               (provided_keys_plain options)).
    + f_equal. unfold verbatim. rewrite <- (map_id (provided options)) at 2.
      apply map_ext. intros [k v]. reflexivity.
    + apply Forall_forall. intros kv Hin. rewrite Forall_forall in Hvalues.
      apply contains_char_none, Hvalues, Hin.
    + exact Hamp.
Qed.

Lemma callback_uri_query_abc :
  query_pairs
    (text_query
       (V1.baseAppUriRaw "https://vscode.example" "abc"
          (Some (mkOptions (Some "/a b") None (Some "x&y")))))
  = [("vscode-id", "abc"); ("vscode-path", "%2Fa%20b");
     ("vscode-fragment", "x%26y")].
Proof.
  destruct (callback_uri_query "https://vscode.example" (fun _ => sample_href)
              sample_location sample_toString throws always_empty 0 0 "abc"
              (Some (mkOptions (Some "/a b") None (Some "x&y")))
              eq_refl eq_refl)
    as (_ & _ & _ & K & _).
  exact (K eq_refl eq_refl).
Defined.

(** Against C5 as first stated: for the identifier [a&b] and no options the
    query of the returned URI has the keys [vscode-id] and [b], in both
    revisions. *)
Lemma ampersand_identifier_adds_key :
  V1.baseAppUriRaw "https://vscode.example" "a&b" None
  = "https://vscode.example/callback?vscode-id=a&b"
  /\ query_keys (text_query (V1.baseAppUriRaw "https://vscode.example" "a&b" None))
     = ["vscode-id"; "b"]
  /\ query_keys (query (fst (V2.create sample_location sample_toString throws
                               always_empty 0 0 "a&b" None)))
     = ["vscode-id"; "b"].
Proof. repeat split. Qed.

(** A [#] in the identifier ends the query of the text handed to
    [URI.parse]: the options after it are no part of the query. *)
Lemma hash_identifier_drops_options :
  query_pairs
    (text_query (V1.baseAppUriRaw "https://vscode.example" "a#b"
                   (Some (mkOptions (Some "/p") None None))))
  = [("vscode-id", "a")].
Proof. reflexivity. Qed.

(** The revision with [doCreateUri] joins the payload values as they are. *)
Lemma doCreateUri_joins_values_verbatim :
  query (V2.doCreateUri sample_location 0 "abc" "callback"
           (Some (V2.create_payload (Some (mkOptions (Some "a&b=c") None None)))))
  = "vscode-id=abc&vscode-path=a&b=c".
Proof. reflexivity. Qed.




(** C6.  [create] returns its URI with the first fetch-callback request for
    the identifier already made: when it returns, before any body has been
    awaited, the session consists of that one request and is pending, and
    however long the session runs on, that request is its first effect. *)
Theorem create_starts_polling
    (origin : string) (URI_parse : string -> URI) (href : Z -> URI)
    (URI_toString : URI -> string) (revive_other : JSON -> error + URI)
    (net : Transport) (now : Z) (identifier : string)
    (options : option IURLCreateOptions) :
  let request1 :=
    (now, Request (origin ++ "/fetch-callback?vscode-id=" ++ identifier)
                  CancellationToken_None) in
  let request2 :=
    (now, Request (URI_toString
                     (URI_with (href now) "fetch-callback"
                        ("vscode-id=" ++ identifier)))
                  CancellationToken_None) in
  V1.create origin URI_parse revive_other net 0 now identifier options
  = (URI_parse (V1.baseAppUriRaw origin identifier options),
     ([request1], Pending))
  /\ (forall fuel, exists rest,
        V1.create origin URI_parse revive_other net fuel now identifier options
        = (URI_parse (V1.baseAppUriRaw origin identifier options),
           (request1 :: rest, snd (V1.doFetch origin revive_other net
                                     fuel identifier 0 now))))
  /\ V2.create href URI_toString revive_other net 0 now identifier options
     = (V2.doCreateUri href now identifier "callback"
          (Some (V2.create_payload options)),
        ([request2], Pending))
  /\ (forall fuel, exists rest,
        V2.create href URI_toString revive_other net fuel now identifier options
        = (V2.doCreateUri href now identifier "callback"
             (Some (V2.create_payload options)),
           (request2 :: rest,
            snd (V2.periodicFetchCallback href URI_toString revive_other net
                   fuel identifier now 0 now)))).
Proof.
  cbv zeta. split; [reflexivity|]. split; [|split; [reflexivity|]].
  - intros fuel. unfold V1.create.
    destruct fuel; cbn [V1.doFetch]; [eexists; reflexivity|].
    destruct (body net 0); eexists; reflexivity.
  - intros fuel. unfold V2.create.
    destruct fuel; cbn [V2.periodicFetchCallback]; [eexists; reflexivity|].
    destruct (body net 0); eexists; reflexivity.
Qed.

(** C9 (amended).  An option given as the empty string is indistinguishable
    from an option left out: [create] returns the same URI and starts the
    same session, in both revisions.  When the identifier holds no [&] (in
    the revision without [doCreateUri]: for an origin without [?] and [#];
    in the revision with it: when no value of a non-empty option holds [&]
    either), the query of the returned URI has no key for that field. *)
Theorem empty_option_is_omitted
    (origin : string) (URI_parse : string -> URI) (href : Z -> URI)
    (URI_toString : URI -> string) (revive_other : JSON -> error + URI)
    (net : Transport) (fuel : nat) (now : Z) (identifier : string)
    (p q f : option string) :
  let given := Some (mkOptions p q f) in
  let kept := Some (mkOptions (omit_empty p) (omit_empty q) (omit_empty f)) in
  let keys1 := query_keys (text_query (V1.baseAppUriRaw origin identifier given)) in
  let keys2 := query_keys (query (fst (V2.create href URI_toString revive_other
                                         net fuel now identifier given))) in
  omit_empty (Some EmptyString) = None
  /\ V1.create origin URI_parse revive_other net fuel now identifier given
     = V1.create origin URI_parse revive_other net fuel now identifier kept
  /\ V2.create href URI_toString revive_other net fuel now identifier given
     = V2.create href URI_toString revive_other net fuel now identifier kept
  /\ V1.create origin URI_parse revive_other net fuel now identifier
       (Some (mkOptions (Some EmptyString) (Some EmptyString) (Some EmptyString)))
     = V1.create origin URI_parse revive_other net fuel now identifier None
  /\ V2.create href URI_toString revive_other net fuel now identifier
       (Some (mkOptions (Some EmptyString) (Some EmptyString) (Some EmptyString)))
     = V2.create href URI_toString revive_other net fuel now identifier None
  /\ (contains_char "&" identifier = false ->
      count_char "?" origin = 0%nat -> count_char "#" origin = 0%nat ->
      (p = Some EmptyString -> ~ In "vscode-path" keys1)
      /\ (q = Some EmptyString -> ~ In "vscode-query" keys1)
      /\ (f = Some EmptyString -> ~ In "vscode-fragment" keys1))
  /\ (contains_char "&" identifier = false ->
      Forall (fun kv => contains_char "&" (snd kv) = false) (provided given) ->
      (p = Some EmptyString -> ~ In "vscode-path" keys2)
      /\ (q = Some EmptyString -> ~ In "vscode-query" keys2)
      /\ (f = Some EmptyString -> ~ In "vscode-fragment" keys2)).
Proof.
  cbv zeta.
  assert (K : forall v, truthy (omit_empty v) = truthy v)
    by (intros [[|c s]|]; reflexivity).
  assert (T : forall v, truthy v = true -> omit_empty v = v)
    by (intros v H; unfold omit_empty; rewrite H; reflexivity).
  assert (P : provided (Some (mkOptions p q f))
              = provided (Some (mkOptions (omit_empty p) (omit_empty q)
                                          (omit_empty f)))).
  { unfold provided. cbn [destructure opt_path opt_query opt_fragment].
    rewrite !K.
    destruct (truthy p) eqn:Ep, (truthy q) eqn:Eq, (truthy f) eqn:Ef;
      rewrite ?(T p Ep), ?(T q Eq), ?(T f Ef); reflexivity. }
  assert (R : forall o1 o2, provided o1 = provided o2 ->
                V1.baseAppUriRaw origin identifier o1
                = V1.baseAppUriRaw origin identifier o2)
    by (intros o1 o2 H; rewrite !baseAppUriRaw_text, H; reflexivity).
  assert (M : forall o1 o2, provided o1 = provided o2 ->
                V2.create_payload o1 = V2.create_payload o2)
    by (intros o1 o2 H; rewrite !create_payload_provided; exact H).
  assert (E : forall key,
                (key = "vscode-path" -> p = Some EmptyString)
                /\ (key = "vscode-query" -> q = Some EmptyString)
                /\ (key = "vscode-fragment" -> f = Some EmptyString) ->
                key = "vscode-path" \/ key = "vscode-query"
                \/ key = "vscode-fragment" ->
                ~ (key = "vscode-id"
                   \/ In key (map fst (provided (Some (mkOptions p q f)))))).
  { intros key (Hp & Hq & Hf) Hkey [Hid|Hin].
    - subst key. destruct Hkey as [H|[H|H]]; discriminate H.
    - apply provided_keys in Hin.
      cbn [destructure opt_path opt_query opt_fragment] in Hin.
      destruct Hin as [[-> Ht]|[[-> Ht]|[-> Ht]]].
      + rewrite (Hp eq_refl) in Ht. discriminate Ht.
      + rewrite (Hq eq_refl) in Ht. discriminate Ht.
      + rewrite (Hf eq_refl) in Ht. discriminate Ht. }
  split; [reflexivity|].
  split; [unfold V1.create; rewrite (R _ _ P); reflexivity|].
  split; [unfold V2.create; rewrite (M _ _ P); reflexivity|].
  split; [reflexivity|]. split; [reflexivity|]. split.
  - intros Hamp Hq Hh. apply contains_char_none in Hamp.
    repeat split; intros Hv Hin;
      apply (baseAppUriRaw_keys origin identifier _ _ Hq Hh Hamp) in Hin;
      revert Hin; apply E;
      try (repeat split; intros H; try discriminate H; exact Hv); tauto.
  - intros Hamp Hvalues. apply contains_char_none in Hamp.
    cbn [V2.create fst V2.doCreateUri URI_with query].
    rewrite doCreateUri_query_text, create_payload_provided.
    rewrite (query_text_keys verbatim identifier _ (provided_keys_plain _));
      [|apply Forall_forall; intros kv Hin; rewrite Forall_forall in Hvalues;
        apply contains_char_none, Hvalues, Hin|exact Hamp].
    repeat split; intros Hv [Hid|Hin]; try discriminate Hid;
      refine (E _ _ _ (or_intror Hin));
      try (repeat split; intros H; try discriminate H; exact Hv); tauto.
Qed.

Lemma empty_option_is_omitted_path :
  ~ In "vscode-path"
       (query_keys
          (text_query
             (V1.baseAppUriRaw "https://vscode.example" "abc123"
                (Some (mkOptions (Some EmptyString) (Some "x=1") None)))))
  /\ ~ In "vscode-path"
          (query_keys
             (query (fst (V2.create sample_location sample_toString throws
                            always_empty 0 0 "abc123"
                            (Some (mkOptions (Some EmptyString) (Some "x=1")
                                             None)))))).
Proof.
  destruct (empty_option_is_omitted "https://vscode.example"
              (fun _ => sample_href) sample_location sample_toString throws
              always_empty 0 0 "abc123" (Some EmptyString) (Some "x=1") None)
    as (_ & _ & _ & _ & _ & H1 & H2).
  destruct (H1 eq_refl eq_refl eq_refl) as (A & _).
  assert (V : Forall (fun kv => contains_char "&" (snd kv) = false)
                (provided (Some (mkOptions (Some EmptyString) (Some "x=1") None))))
    by (repeat constructor).
  destruct (H2 eq_refl V) as (B & _).
  split; [exact (A eq_refl)|exact (B eq_refl)].
Defined.

(** Against C9 as first stated: for the identifier [a&vscode-path=z] and the
    path given as the empty string, the query of the returned URI has the
    key [vscode-path], in both revisions. *)
Lemma empty_path_key_from_identifier :
  query_keys
    (text_query
       (V1.baseAppUriRaw "https://vscode.example" "a&vscode-path=z"
          (Some (mkOptions (Some EmptyString) None None))))
  = ["vscode-id"; "vscode-path"]
  /\ query_keys
       (query (fst (V2.create sample_location sample_toString throws
                      always_empty 0 0 "a&vscode-path=z"
                      (Some (mkOptions (Some EmptyString) None None)))))
     = ["vscode-id"; "vscode-path"].
Proof. split; reflexivity. Qed.

(** * Further properties *)

(** ** The shared loop *)

Lemma byteLength_nonneg (content : string) : 0 <= byteLength content.
Proof. unfold byteLength. lia. Qed.

Lemma doFetch_poll (origin : string) (revive_other : JSON -> error + URI)
    (net : Transport) (identifier : string) (fuel : nat) :
  forall (k : nat) (now : Z),
    V1.doFetch origin revive_other net fuel identifier k now
    = poll retry_always (fun _ => V1.fetch_url origin identifier) revive_other
        net fuel k now.
Proof.
  induction fuel as [|fuel IH]; intros k now; cbn [V1.doFetch poll];
    [reflexivity|].
  destruct (body net k) as [content|]; [|reflexivity].
  destruct (byteLength content =? 0); [|reflexivity].
  cbn [retry_always]. rewrite IH. reflexivity.
Qed.

Lemma periodicFetchCallback_poll (href : Z -> URI) (URI_toString : URI -> string)
    (revive_other : JSON -> error + URI) (net : Transport)
    (identifier : string) (startTime : Z) (fuel : nat) :
  forall (k : nat) (now : Z),
    V2.periodicFetchCallback href URI_toString revive_other net
      fuel identifier startTime k now
    = poll (retry_until startTime)
        (fun t => V2.fetch_url href URI_toString t identifier)
        revive_other net fuel k now.
Proof.
  induction fuel as [|fuel IH]; intros k now;
    cbn [V2.periodicFetchCallback poll]; [reflexivity|].
  destruct (body net k) as [content|]; [|reflexivity].
  assert (N := byteLength_nonneg content).
  destruct (byteLength content =? 0) eqn:E.
  - apply Z.eqb_eq in E. rewrite E. cbn [Z.ltb Z.compare]. unfold retry_until.
    destruct (now + latency net k - startTime <? V2.FETCH_TIMEOUT);
      [rewrite IH|]; reflexivity.
  - apply Z.eqb_neq in E.
    replace (0 <? byteLength content) with true
      by (symmetry; apply Z.ltb_lt; lia).
    reflexivity.
Qed.

Lemma forEach_fire_logs_once ro (uris : list JSON) :
  (List.length (logs (forEach_fire ro uris)) <= 1)%nat.
Proof.
  induction uris as [|u rest IH]; cbn [forEach_fire]; [cbn; lia|].
  destruct (URI_revive ro u); [cbn; lia|exact IH].
Qed.

Lemma handle_content_logs_once ro (content : string) :
  (List.length (logs (handle_content ro content)) <= 1)%nat.
Proof.
  unfold handle_content.
  destruct (JSON_parse content) as [e|[]]; try (cbn; lia).
  apply forEach_fire_logs_once.
Qed.

Lemma in_flight_cons (e : Z * event) (tr : trace) :
  in_flight (e :: tr)
  = (if is_request e then 1 else 0) - (if is_response e then 1 else 0)
    - (if is_rejected e then 1 else 0) + in_flight tr.
Proof.
  unfold in_flight, requests, responses. cbn [filter].
  destruct (is_request e), (is_response e), (is_rejected e);
    cbn [map List.length]; lia.
Qed.

Lemma one_at_a_time_in_flight (p : trace) :
  forall (open : bool) (rest : trace),
    one_at_a_time open (p ++ rest)%list ->
    0 <= (if open then 1 else 0) + in_flight p <= 1.
Proof.
  induction p as [|[t e] p IH]; intros open rest H.
  - change (in_flight []) with 0. destruct open; lia.
  - rewrite in_flight_cons. cbn [app one_at_a_time] in H.
    destruct e; cbn [is_request is_response is_rejected snd];
      try (destruct H as [-> H]); specialize (IH _ _ H); cbv iota in *; lia.
Qed.

Lemma callbacks_one_at_a_time (t : Z) (evs : list event) (open : bool) :
  Forall callback_event evs -> one_at_a_time open (map (pair t) evs).
Proof.
  induction 1 as [|e evs He _ IH]; [exact I|].
  destruct e; cbn in He; try contradiction; exact IH.
Qed.

Section LoopFacts.

Variable retry : Z -> option Z.
Variable url : Z -> string.
Variable revive_other : JSON -> error + URI.
Variable net : Transport.

Lemma poll_enters (fuel k : nat) (now : Z) :
  exists rest,
    requests (fst (poll retry url revive_other net fuel k now)) = now :: rest.
Proof.
  destruct fuel; cbn [poll]; autorewrite with trace; eexists; reflexivity.
Qed.

Lemma poll_one_at_a_time (fuel : nat) :
  forall (k : nat) (now : Z),
    one_at_a_time false (fst (poll retry url revive_other net fuel k now)).
Proof.
  induction fuel as [|fuel IH]; intros k now; cbn [poll].
  - cbn. tauto.
  - destruct (body net k) as [content|]; [|cbn; tauto].
    destruct (byteLength content =? 0).
    + destruct (retry (now + latency net k)); [|cbn; tauto].
      cbn [emit fst one_at_a_time]. repeat split. apply IH.
    + cbn [emit fst one_at_a_time]. repeat split.
      apply callbacks_one_at_a_time, handle_content_callbacks.
Qed.

Lemma poll_callbacks (fuel : nat) :
  forall (k : nat) (now : Z),
    let r := poll retry url revive_other net fuel k now in
    (List.length (logged (fst r)) <= 1)%nat
    /\ (fired (fst r) <> [] \/ logged (fst r) <> [] -> snd r = Done).
Proof.
  induction fuel as [|fuel IH]; intros k now; cbn [poll].
  - cbn. split; [lia|]. intros [H|H]; congruence.
  - destruct (body net k) as [content|]; [|cbn; split; [lia|reflexivity]].
    destruct (byteLength content =? 0).
    + destruct (retry (now + latency net k)); autorewrite with trace.
      * apply IH.
      * cbn. split; [lia|reflexivity].
    + autorewrite with trace. cbn [fst snd]. split; [|reflexivity].
      rewrite logged_at. apply handle_content_logs_once.
Qed.

Section Paced.

Variable d : Z.
Hypothesis slow : forall t delay, retry t = Some delay -> d <= delay.
Hypothesis on_time : punctual net.

Lemma poll_spaced (fuel : nat) :
  forall (k : nat) (now : Z),
    spaced d (requests (fst (poll retry url revive_other net fuel k now))).
Proof.
  induction fuel as [|fuel IH]; intros k now; cbn [poll]; [exact I|].
  destruct (body net k) as [content|]; [|exact I].
  destruct (byteLength content =? 0).
  - destruct (retry (now + latency net k)) as [delay|] eqn:E;
      autorewrite with trace; [|exact I].
    destruct (poll_enters fuel (S k) (now + latency net k + delay + lag net k))
      as [rest X].
    assert (Sp := IH (S k) (now + latency net k + delay + lag net k)).
    rewrite X in Sp |- *. apply spaced_cons; [|exact Sp].
    destruct (on_time k). specialize (slow _ _ E). lia.
  - destruct (callbacks_requests (now + latency net k) _
                (handle_content_callbacks revive_other content))
      as (R & _).
    autorewrite with trace. cbn [fst]. rewrite R. exact I.
Qed.

Variable deadline : Z.
Hypothesis expires : forall t, deadline <= t -> retry t = None.

Lemma poll_bounded (m : nat) :
  forall (k : nat) (now : Z) (fuel : nat),
    deadline - now <= d * Z.of_nat m ->
    let r := poll retry url revive_other net fuel k now in
    (List.length (requests (fst r)) <= S m)%nat
    /\ ((m < fuel)%nat -> snd r = Done).
Proof.
  induction m as [|m IH]; intros k now fuel Hleft;
    (destruct fuel as [|fuel]; [cbn; split; lia|]); cbn [poll];
    destruct (on_time k) as [Hlat Hlag];
    (destruct (body net k) as [content|]; [|cbn; split; [lia|reflexivity]]);
    destruct (callbacks_requests (now + latency net k) _
                (handle_content_callbacks revive_other content))
      as (R & _);
    (destruct (byteLength content =? 0);
     [|autorewrite with trace; cbn [fst snd List.length]; rewrite R; cbn;
       split; [lia|reflexivity]]).
  - rewrite expires by lia. cbn. split; [lia|reflexivity].
  - destruct (retry (now + latency net k)) as [delay|] eqn:E;
      [|cbn; split; [lia|reflexivity]].
    specialize (slow _ _ E).
    destruct (IH (S k) (now + latency net k + delay + lag net k) fuel)
      as [B D]; [lia|].
    autorewrite with trace. cbn [List.length]. split; [lia|].
    intros Hfuel. apply D. lia.
Qed.

End Paced.

End LoopFacts.

Lemma retry_until_slow (startTime t delay : Z) :
  retry_until startTime t = Some delay -> V2.FETCH_INTERVAL <= delay.
Proof.
  unfold retry_until.
  destruct (t - startTime <? V2.FETCH_TIMEOUT); [|discriminate].
  intros H. injection H as <-. lia.
Qed.

Lemma retry_until_expires (startTime t : Z) :
  startTime + V2.FETCH_TIMEOUT <= t -> retry_until startTime t = None.
Proof.
  intros H. unfold retry_until.
  destruct (t - startTime <? V2.FETCH_TIMEOUT) eqn:E; [|reflexivity].
  apply Z.ltb_lt in E. lia.
Qed.

Lemma retry_always_slow (t delay : Z) :
  retry_always t = Some delay -> 500 <= delay.
Proof. unfold retry_always. intros H. injection H as <-. lia. Qed.

Lemma answers_after_punctual (n : nat) (payload : string) :
  punctual (answers_after n payload).
Proof. intros k. cbn. lia. Qed.

(** ** Every session *)

(** X2.  A session never has two requests in flight: after every effect of
    the session, the requests made so far exceed the bodies read and the
    failures met so far by at most one, and never fall below them; this
    holds whatever the transport does, failing requests included. *)
Theorem one_request_in_flight
    (origin : string) (URI_parse : string -> URI) (href : Z -> URI)
    (URI_toString : URI -> string) (revive_other : JSON -> error + URI)
    (net : Transport) (fuel : nat) (now : Z) (identifier : string)
    (options : option IURLCreateOptions) (n : nat) :
  0 <= in_flight (firstn n (fst (snd (V1.create origin URI_parse revive_other
                                        net fuel now identifier options)))) <= 1
  /\ 0 <= in_flight (firstn n (fst (snd (V2.create href URI_toString
                                           revive_other net fuel now identifier
                                           options)))) <= 1.
Proof.
  assert (P : forall tr, one_at_a_time false tr ->
                0 <= in_flight (firstn n tr) <= 1).
  { intros tr H. rewrite <- (firstn_skipn n tr) in H.
    apply (one_at_a_time_in_flight _ false _ H). }
  split; apply P.
  - cbn [V1.create snd]. rewrite doFetch_poll. apply poll_one_at_a_time.
  - cbn [V2.create snd]. rewrite periodicFetchCallback_poll.
    apply poll_one_at_a_time.
Qed.

(** X3.  Whatever the bodies are, as long as no fetch and no timer takes
    negative time, successive fetches of a session lie at least 500ms
    ([FETCH_INTERVAL]) apart. *)
Theorem fetches_are_spaced
    (origin : string) (URI_parse : string -> URI) (href : Z -> URI)
    (URI_toString : URI -> string) (revive_other : JSON -> error + URI)
    (net : Transport) (fuel : nat) (now : Z) (identifier : string)
    (options : option IURLCreateOptions) :
  punctual net ->
  spaced 500
    (requests (fst (snd (V1.create origin URI_parse revive_other net
                           fuel now identifier options))))
  /\ spaced V2.FETCH_INTERVAL
       (requests (fst (snd (V2.create href URI_toString revive_other net
                              fuel now identifier options)))).
Proof.
  intros Hp. split.
  - cbn [V1.create snd]. rewrite doFetch_poll.
    apply poll_spaced; [exact retry_always_slow|exact Hp].
  - cbn [V2.create snd]. rewrite periodicFetchCallback_poll.
    apply poll_spaced; [exact (retry_until_slow now)|exact Hp].
Qed.

Lemma fetches_are_spaced_abc123 :
  spaced V2.FETCH_INTERVAL
    (requests (fst (snd (V2.create sample_location sample_toString throws
                           (answers_after 3 done_payload) 10 0 "abc123" None)))).
Proof.
  exact (proj2 (fetches_are_spaced "https://vscode.example"
                  (fun _ => sample_href) sample_location sample_toString throws
                  (answers_after 3 done_payload) 10 0 "abc123" None
                  (answers_after_punctual 3 done_payload))).
Defined.

(** X4.  With [FETCH_TIMEOUT], whatever the bodies are (no fetch and no timer
    taking negative time), a session makes at most
    [FETCH_TIMEOUT / FETCH_INTERVAL + 1] fetches, and it is over once the
    event loop has run it for more than [FETCH_TIMEOUT / FETCH_INTERVAL]
    bodies. *)
Theorem timeout_bounds_every_session
    (href : Z -> URI) (URI_toString : URI -> string)
    (revive_other : JSON -> error + URI) (net : Transport) (fuel : nat)
    (now : Z) (identifier : string) (options : option IURLCreateOptions) :
  punctual net ->
  let r := snd (V2.create href URI_toString revive_other net
                  fuel now identifier options) in
  Z.of_nat (List.length (requests (fst r)))
  <= V2.FETCH_TIMEOUT / V2.FETCH_INTERVAL + 1
  /\ (V2.FETCH_TIMEOUT / V2.FETCH_INTERVAL < Z.of_nat fuel -> snd r = Done).
Proof.
  intros Hp. cbv zeta. cbn [V2.create snd]. rewrite periodicFetchCallback_poll.
  destruct (poll_bounded (retry_until now)
              (fun t => V2.fetch_url href URI_toString t identifier)
              revive_other net V2.FETCH_INTERVAL (retry_until_slow now) Hp
              (now + V2.FETCH_TIMEOUT) (retry_until_expires now)
              10 0%nat now fuel) as [B D].
  - unfold V2.FETCH_TIMEOUT, V2.FETCH_INTERVAL. lia.
  - change (V2.FETCH_TIMEOUT / V2.FETCH_INTERVAL) with 10.
    split; [lia|]. intros Hfuel. apply D. lia.
Qed.

Lemma timeout_bounds_every_session_oops :
  snd (snd (V2.create sample_location sample_toString throws
              (answers_after 40 "{oops") 11 0 "abc123" None)) = Done.
Proof.
  apply (timeout_bounds_every_session sample_location sample_toString throws
           (answers_after 40 "{oops") 11 0 "abc123" None
           (answers_after_punctual 40 "{oops")).
  reflexivity.
Defined.

(** X5.  A session logs at most one error, and once it has fired a URI or
    logged an error it is over: nothing is fetched after a callback or a
    logged error. *)
Theorem session_logs_at_most_once
    (origin : string) (URI_parse : string -> URI) (href : Z -> URI)
    (URI_toString : URI -> string) (revive_other : JSON -> error + URI)
    (net : Transport) (fuel : nat) (now : Z) (identifier : string)
    (options : option IURLCreateOptions) :
  (let r := snd (V1.create origin URI_parse revive_other net
                   fuel now identifier options) in
   (List.length (logged (fst r)) <= 1)%nat
   /\ (fired (fst r) <> [] \/ logged (fst r) <> [] -> snd r = Done))
  /\ (let r := snd (V2.create href URI_toString revive_other net
                      fuel now identifier options) in
      (List.length (logged (fst r)) <= 1)%nat
      /\ (fired (fst r) <> [] \/ logged (fst r) <> [] -> snd r = Done)).
Proof.
  split; cbv zeta.
  - cbn [V1.create snd]. rewrite doFetch_poll. apply poll_callbacks.
  - cbn [V2.create snd]. rewrite periodicFetchCallback_poll.
    apply poll_callbacks.
Qed.

Lemma session_logs_at_most_once_done :
  snd (snd (V1.create "https://vscode.example" (fun _ => sample_href) throws
              (answers_after 1 done_payload) 5 0 "abc123" None)) = Done.
Proof.
  destruct (session_logs_at_most_once "https://vscode.example"
              (fun _ => sample_href) sample_location sample_toString throws
              (answers_after 1 done_payload) 5 0 "abc123" None) as [[_ H] _].
  apply H. left. vm_compute. discriminate.
Defined.

(** X8.  Below the timeout the two revisions behave alike: when they ask for
    the same URL and every body the session is run for is read at an elapsed
    time below [FETCH_TIMEOUT], [periodicFetchCallback] performs exactly the
    effects of [doFetch], at the same times. *)
Theorem revisions_agree_below_timeout
    (origin : string) (href : Z -> URI) (URI_toString : URI -> string)
    (revive_other : JSON -> error + URI) (net : Transport)
    (identifier : string) (startTime : Z) (fuel : nat) :
  (forall t, V2.fetch_url href URI_toString t identifier
             = V1.fetch_url origin identifier) ->
  forall (k : nat) (now : Z),
    within_timeout net startTime fuel k now = true ->
    V2.periodicFetchCallback href URI_toString revive_other net
      fuel identifier startTime k now
    = V1.doFetch origin revive_other net fuel identifier k now.
Proof.
  intros U. induction fuel as [|fuel IH]; intros k now W;
    cbn [V2.periodicFetchCallback V1.doFetch]; rewrite U; [reflexivity|].
  cbn [within_timeout] in W. apply andb_prop in W as [T W].
  destruct (body net k) as [content|]; [|reflexivity].
  assert (N := byteLength_nonneg content).
  destruct (byteLength content =? 0) eqn:E.
  - apply Z.eqb_eq in E. rewrite E. cbn [Z.ltb Z.compare]. rewrite T.
    rewrite (IH _ _ W). reflexivity.
  - apply Z.eqb_neq in E.
    replace (0 <? byteLength content) with true
      by (symmetry; apply Z.ltb_lt; lia).
    reflexivity.
Qed.

Lemma revisions_agree_below_timeout_abc123 :
  V2.periodicFetchCallback sample_location sample_toString throws
    (answers_after 3 done_payload) 8 "abc123" 0 0 0
  = V1.doFetch "https://vscode.example" throws
      (answers_after 3 done_payload) 8 "abc123" 0 0.
Proof.
  apply (revisions_agree_below_timeout "https://vscode.example"
           sample_location sample_toString throws
           (answers_after 3 done_payload) "abc123" 0 8);
    reflexivity.
Defined.

(** ** What a body fires *)

Lemma fires_Fire (u : URI) (evs : list event) :
  fires (Fire u :: evs) = u :: fires evs.
Proof. reflexivity. Qed.

Lemma forEach_fire_prefix ro (uris : list JSON) :
  exists n,
    (n <= List.length uris)%nat
    /\ map (@inr error URI) (fires (forEach_fire ro uris))
       = map (URI_revive ro) (firstn n uris)
    /\ ((n = List.length uris /\ logs (forEach_fire ro uris) = [])
        \/ exists x e, nth_error uris n = Some x
                       /\ URI_revive ro x = inl e
                       /\ logs (forEach_fire ro uris) = [e]).
Proof.
  induction uris as [|u rest (n & Hn & Hf & Hl)].
  - exists 0%nat. repeat split; [cbn; lia|]. left. split; reflexivity.
  - cbn [forEach_fire]. destruct (URI_revive ro u) as [e|uri] eqn:E.
    + exists 0%nat. repeat split; [cbn; lia|]. right. exists u, e.
      repeat split. exact E.
    + exists (S n). rewrite fires_Fire. cbn [map firstn List.length nth_error].
      rewrite E, Hf. repeat split; [lia|].
      destruct Hl as [[-> L]|(x & e & X & R & L)].
      * left. split; [reflexivity|exact L].
      * right. exists x, e. repeat split; assumption.
Qed.

(** X6.  When the body a fetch reads parses to an array, what the fetch fires
    is [URI.revive] of the elements of an initial stretch of that array, in
    order and without gaps; either the stretch is the whole array and nothing
    is logged, or it stops before the first element on which [URI.revive]
    throws, and that one error is logged. *)
Theorem fired_is_revived_prefix
    (origin : string) (href : Z -> URI) (URI_toString : URI -> string)
    (revive_other : JSON -> error + URI) (net : Transport)
    (identifier : string) (startTime : Z) (fuel k : nat) (now : Z)
    (content : string) (elements : list JSON) :
  body net k = Some content ->
  JSON_parse content = inr (JArray elements) ->
  exists n,
    (n <= List.length elements)%nat
    /\ (forall r,
          r = V1.doFetch origin revive_other net (S fuel) identifier k now
          \/ r = V2.periodicFetchCallback href URI_toString revive_other net
                   (S fuel) identifier startTime k now ->
          map (@inr error URI) (fired (fst r))
          = map (URI_revive revive_other) (firstn n elements)
          /\ ((n = List.length elements /\ logged (fst r) = [])
              \/ exists x e, nth_error elements n = Some x
                             /\ URI_revive revive_other x = inl e
                             /\ logged (fst r) = [e])).
Proof.
  intros B P. assert (Hbody := parsed_not_empty _ _ P).
  destruct (forEach_fire_prefix revive_other elements) as (n & Hn & Hf & Hl).
  assert (H : handle_content revive_other content
              = forEach_fire revive_other elements)
    by (unfold handle_content; rewrite P; reflexivity).
  exists n. split; [exact Hn|]. intros r [-> | ->].
  - destruct (doFetch_reaches origin revive_other net identifier 0 content
                k now (S fuel))
      as (_ & _ & F & L);
      [lia|rewrite Nat.add_0_r; exact B|exact Hbody|lia|].
    rewrite H in F, L. rewrite F, L. split; assumption.
  - destruct (periodicFetchCallback_reaches href URI_toString revive_other net
                identifier startTime 0 content k now (S fuel))
      as (_ & _ & F & L);
      [lia|rewrite Nat.add_0_r; exact B|exact Hbody|reflexivity|lia|].
    rewrite H in F, L. rewrite F, L. split; assumption.
Qed.

Lemma fired_is_revived_prefix_mixed :
  exists n, (n <= 2)%nat
    /\ map (@inr error URI)
         (fired (fst (V1.doFetch "https://vscode.example" throws
                        (answers_after 0 mixed_payload) 1 "abc123" 0 0)))
       = map (URI_revive throws) (firstn n [done_json; JNumber "5"]).
Proof.
  destruct (fired_is_revived_prefix "https://vscode.example" sample_location
              sample_toString throws (answers_after 0 mixed_payload) "abc123"
              0 0 0 0 mixed_payload [done_json; JNumber "5"]) as (n & Hn & H).
  - reflexivity.
  - vm_compute. reflexivity.
  - exists n. split; [exact Hn|]. apply (H _ (or_introl eq_refl)).
Defined.

(** ** Telling callback URIs apart *)

Lemma append_cancel (a b c : string) : a ++ b = a ++ c -> b = c.
Proof.
  induction a as [|x a IH]; cbn; [trivial|].
  intros H. injection H as H. apply IH, H.
Qed.

Lemma encodeURIComponent_injective (v w : string) :
  encodeURIComponent v = encodeURIComponent w -> v = w.
Proof.
  intros H. assert (D := decode_encode v). rewrite H, decode_encode in D.
  injection D as D. symmetry. exact D.
Qed.

Lemma map_injective_on {A B : Type} (f : A -> B) (P : A -> Prop) :
  (forall x y, P x -> P y -> f x = f y -> x = y) ->
  forall l1 l2 : list A,
    Forall P l1 -> Forall P l2 -> map f l1 = map f l2 -> l1 = l2.
Proof.
  intros Hinj. induction l1 as [|x l1 IH]; intros [|y l2] H1 H2 E;
    try discriminate; [reflexivity|].
  inversion H1; inversion H2; subst. cbn in E. injection E as Ex El.
  f_equal; [apply Hinj; assumption|apply IH; assumption].
Qed.

Lemma encoded_pair_injective (x y : string * string) :
  plain_key x -> plain_key y ->
  fst x ++ "=" ++ encodeURIComponent (snd x)
  = fst y ++ "=" ++ encodeURIComponent (snd y) ->
  x = y.
Proof.
  intros [_ Hx] [_ Hy] E.
  assert (S : split_on "=" (fst x ++ String "=" (encodeURIComponent (snd x)))
              = split_on "=" (fst y ++ String "=" (encodeURIComponent (snd y))))
    by (f_equal; exact E).
  rewrite (split_on_sep "=" _ _ Hx), (split_on_sep "=" _ _ Hy) in S.
  rewrite !split_on_plain in S
    by (apply encoded_has_no_delimiter; right; reflexivity).
  injection S as K V. apply encodeURIComponent_injective in V.
  destruct x, y. cbn in *. congruence.
Qed.

(** X9.  The text [create] hands to [URI.parse] tells option sets apart:
    for one origin and one identifier (any identifier), two calls give the
    same text only if they provide the same non-empty options with the same
    values. *)
Theorem callback_text_tells_options_apart
    (origin identifier : string) (options1 options2 : option IURLCreateOptions) :
  V1.baseAppUriRaw origin identifier options1
  = V1.baseAppUriRaw origin identifier options2 ->
  provided options1 = provided options2.
Proof.
  rewrite !baseAppUriRaw_text. unfold query_text. intros E.
  apply append_cancel, append_cancel, append_cancel, append_cancel in E.
  set (bodyof := fun kv : string * string =>
                   fst kv ++ "=" ++ encodeURIComponent (snd kv)).
  assert (Hplain : forall o,
             Forall (fun b => count_char "&" b = 0%nat)
                    (map bodyof (provided o))).
  { intros o. apply Forall_forall. intros b Hb. apply in_map_iff in Hb.
    destruct Hb as (kv & <- & Hin).
    assert (K := provided_keys_plain o). rewrite Forall_forall in K.
    destruct (K kv Hin) as [Hamp _]. unfold bodyof.
    rewrite !count_char_app, Hamp, encoded_has_no_delimiter; [reflexivity|].
    left. reflexivity. }
  assert (Hsplit : forall o,
             split_on "&"
               (flatten (map (fun kv => "&" ++ fst kv ++ "=" ++
                                        encodeURIComponent (snd kv))
                             (provided o)))
             = EmptyString :: map bodyof (provided o)).
  { intros o.
    replace (map (fun kv => "&" ++ fst kv ++ "=" ++ encodeURIComponent (snd kv))
                 (provided o))
      with (map (String "&") (map bodyof (provided o)))
      by (rewrite map_map; reflexivity).
    apply (split_segments "&" _ EmptyString eq_refl (Hplain o)). }
  assert (S := Hsplit options1). rewrite E, Hsplit in S. injection S as S.
  symmetry in S.
  apply (map_injective_on bodyof plain_key encoded_pair_injective _ _
           (provided_keys_plain options1) (provided_keys_plain options2) S).
Qed.

Lemma callback_text_tells_options_apart_sample :
  provided (Some (mkOptions (Some "/a") (Some EmptyString) None))
  = provided (Some (mkOptions (Some "/a") None None)).
Proof.
  apply (callback_text_tells_options_apart "https://vscode.example" "abc123").
  reflexivity.
Defined.

Lemma append_not_self (a b : string) : b <> EmptyString -> a ++ b <> a.
Proof.
  intros Hb E. rewrite <- (append_empty a) in E at 2.
  apply append_cancel in E. contradiction.
Qed.

Lemma truthy_append (p s : string) :
  truthy (Some p) = true -> truthy (Some (p ++ s)) = true.
Proof. destruct p; [discriminate|reflexivity]. Qed.

(** X10.  [doCreateUri] joins the payload values as they are, so it does not
    tell option sets apart: a path that ends in [&vscode-query=q] gives the
    very URI of that path cut short together with the query [q], although
    the two calls provide different options. *)
Theorem doCreateUri_confuses_options
    (href : Z -> URI) (URI_toString : URI -> string)
    (revive_other : JSON -> error + URI) (net : Transport) (fuel : nat)
    (now : Z) (identifier p q : string) (f : option string) :
  p <> EmptyString -> q <> EmptyString ->
  let joined := Some (mkOptions (Some (p ++ "&vscode-query=" ++ q)) None f) in
  let separate := Some (mkOptions (Some p) (Some q) f) in
  fst (V2.create href URI_toString revive_other net fuel now identifier joined)
  = fst (V2.create href URI_toString revive_other net fuel now identifier separate)
  /\ V2.create_payload joined <> V2.create_payload separate.
Proof.
  intros Hp Hq. cbv zeta.
  assert (Tp : truthy (Some p) = true) by (destruct p; [congruence|reflexivity]).
  assert (Tq : truthy (Some q) = true) by (destruct q; [congruence|reflexivity]).
  assert (Tj := truthy_append p ("&vscode-query=" ++ q) Tp).
  split.
  - cbn [V2.create fst]. unfold V2.doCreateUri. f_equal.
    rewrite !doCreateUri_query_text, !create_payload_provided.
    unfold provided, query_text, verbatim.
    cbn [destructure opt_path opt_query opt_fragment text truthy] in *.
    rewrite Tp, Tq, Tj. f_equal.
    destruct (negb _); cbn [app map flatten fst snd];
      rewrite ?append_assoc, ?append_empty; cbn [append];
      rewrite ?append_assoc; reflexivity.
  - rewrite !create_payload_provided. unfold provided.
    cbn [destructure opt_path opt_query opt_fragment text truthy] in *.
    rewrite Tp, Tq, Tj. cbn [app]. intros E. injection E as E _.
    apply (append_not_self p ("&vscode-query=" ++ q)); [discriminate|exact E].
Qed.

Lemma doCreateUri_confuses_options_sample :
  fst (V2.create sample_location sample_toString throws always_empty 0 0 "abc123"
         (Some (mkOptions (Some "/a&vscode-query=x") None None)))
  = fst (V2.create sample_location sample_toString throws always_empty 0 0 "abc123"
           (Some (mkOptions (Some "/a") (Some "x") None))).
Proof.
  apply (doCreateUri_confuses_options sample_location sample_toString throws
           always_empty 0 0 "abc123" "/a" "x" None); discriminate.
Defined.

(** ** The problems panel *)

Lemma last_cons_default {A : Type} (x : A) (l : list A) (d d' : A) :
  last (x :: l) d = last (x :: l) d'.
Proof.
  revert x. induction l as [|y l IH]; intros x; [reflexivity|].
  change (last (x :: y :: l) d) with (last (y :: l) d).
  change (last (x :: y :: l) d') with (last (y :: l) d'). apply IH.
Qed.

(** X11.  Assigning [useFilesExclude] fires [onDidChange] exactly when the
    value changes: along any list of assignments the number of events fired
    is the number of changes of value, the getter then returns the value
    assigned last, and assigning the value read changes nothing. *)
Theorem useFilesExclude_fires_on_change
    (assignments : list bool) (item : Markers.MarkersFilterActionItem) :
  let item' :=
    fold_left (fun i b => Markers.set_useFilesExclude b i) assignments item in
  Markers.onDidChange_fired item'
  = (Markers.onDidChange_fired item
     + changes (Markers.get_useFilesExclude item) assignments)%nat
  /\ Markers.get_useFilesExclude item'
     = last assignments (Markers.get_useFilesExclude item)
  /\ Markers.set_useFilesExclude (Markers.get_useFilesExclude item') item'
     = item'.
Proof.
  cbv zeta. revert item.
  induction assignments as [|b rest IH]; intros item.
  - cbn. repeat split; [lia|].
    unfold Markers.set_useFilesExclude, Markers.get_useFilesExclude.
    rewrite Bool.eqb_reflx. reflexivity.
  - cbn [fold_left changes].
    destruct (IH (Markers.set_useFilesExclude b item)) as (F & G & S).
    assert (Hget : Markers.get_useFilesExclude
                     (Markers.set_useFilesExclude b item) = b).
    { unfold Markers.set_useFilesExclude, Markers.get_useFilesExclude.
      destruct (Bool.eqb (Markers.filesExcludeFilter_checked item) b) eqn:E;
        cbn; [apply Bool.eqb_prop in E; exact E|reflexivity]. }
    assert (Hfired : Markers.onDidChange_fired
                       (Markers.set_useFilesExclude b item)
                     = (Markers.onDidChange_fired item
                        + (if Bool.eqb (Markers.get_useFilesExclude item) b
                           then 0 else 1))%nat).
    { unfold Markers.set_useFilesExclude, Markers.get_useFilesExclude.
      destruct (Bool.eqb (Markers.filesExcludeFilter_checked item) b);
        cbn; lia. }
    rewrite Hget in F, G. rewrite Hfired in F. repeat split.
    + rewrite F. lia.
    + rewrite G. destruct rest as [|c rest]; [reflexivity|].
      change (last (b :: c :: rest) (Markers.get_useFilesExclude item))
        with (last (c :: rest) (Markers.get_useFilesExclude item)).
      apply last_cons_default.
    + exact S.
Qed.

Section QuickFixFacts.

Variable isEqual : URI -> URI -> bool.
Variable hasFixes : option bool.
Variable marker_resource : URI.

Lemma models_added_deaf (models : list URI) (a : Markers.QuickFixAction) :
  Markers.listening a = false -> Markers.models_added isEqual hasFixes marker_resource models a = a.
Proof.
  unfold Markers.models_added. revert a.
  induction models as [|m models IH]; intros a H; [reflexivity|].
  cbn [fold_left]. unfold Markers.onModelAdded at 2. rewrite H. apply IH, H.
Qed.

Lemma models_added_updated (models : list URI) (a : Markers.QuickFixAction) :
  Markers.updated a = true -> Markers.models_added isEqual hasFixes marker_resource models a = a.
Proof.
  unfold Markers.models_added. revert a.
  induction models as [|m models IH]; intros a H; [reflexivity|].
  cbn [fold_left].
  replace (Markers.onModelAdded isEqual hasFixes marker_resource m a) with a.
  - apply IH, H.
  - unfold Markers.onModelAdded, Markers.update. rewrite H.
    destruct (Markers.listening a), (isEqual m marker_resource); reflexivity.
Qed.

Lemma models_added_listening (models : list URI) (a : Markers.QuickFixAction) :
  Markers.listening a = true -> Markers.updated a = false ->
  Markers.models_added isEqual hasFixes marker_resource models a
  = if existsb (fun m => isEqual m marker_resource) models
    then Markers.update hasFixes a else a.
Proof.
  revert a. induction models as [|m models IH]; intros a L U; [reflexivity|].
  cbn [existsb]. unfold Markers.models_added. cbn [fold_left].
  unfold Markers.onModelAdded at 2. rewrite L.
  destruct (isEqual m marker_resource); cbn [orb].
  - apply models_added_updated. unfold Markers.update. rewrite U. reflexivity.
  - apply IH; assumption.
Qed.

End QuickFixFacts.

(** X12.  A [QuickFixAction] asks [hasFixes] at most once, however many
    models are added: exactly once when the model of the marker exists at
    construction or a model added later is equal to the marker's resource,
    and never otherwise; it is enabled only if that one answer was yes, and
    once disposed it asks nothing more. *)
Theorem hasFixes_is_asked_once
    (isEqual : URI -> URI -> bool) (hasFixes : option bool)
    (marker_resource : URI) (model_exists : bool) (models later : list URI) :
  let a := Markers.models_added isEqual hasFixes marker_resource models
             (Markers.new_QuickFixAction hasFixes model_exists) in
  let asked :=
    model_exists || existsb (fun m => isEqual m marker_resource) models in
  Markers.hasFixes_asked a = (if asked then 1 else 0)%nat
  /\ Markers.updated a = asked
  /\ (Markers.enabled a = true -> asked = true /\ hasFixes = Some true)
  /\ Markers.models_added isEqual hasFixes marker_resource later
       (Markers.dispose a)
     = Markers.dispose a.
Proof.
  cbv zeta. split; [|split; [|split]].
  - destruct model_exists; cbn [orb Markers.new_QuickFixAction].
    + rewrite models_added_updated by reflexivity. reflexivity.
    + rewrite models_added_listening by reflexivity.
      destruct (existsb _ models); reflexivity.
  - destruct model_exists; cbn [orb Markers.new_QuickFixAction].
    + rewrite models_added_updated by reflexivity. reflexivity.
    + rewrite models_added_listening by reflexivity.
      destruct (existsb _ models); reflexivity.
  - destruct model_exists; cbn [orb Markers.new_QuickFixAction].
    + rewrite models_added_updated by reflexivity.
      destruct hasFixes as [[]|]; cbn; intros H; try discriminate.
      split; reflexivity.
    + rewrite models_added_listening by reflexivity.
      destruct (existsb _ models); [|cbn; discriminate].
      destruct hasFixes as [[]|]; cbn; intros H; try discriminate.
      split; reflexivity.
  - apply models_added_deaf. reflexivity.
Qed.

Lemma hasFixes_is_asked_once_sample :
  let same := fun u v : URI => String.eqb (path u) (path v) in
  Markers.hasFixes_asked
    (Markers.models_added same (Some true) done_uri
       [sample_href; done_uri; done_uri]
       (Markers.new_QuickFixAction (Some true) false)) = 1%nat
  /\ Some true = Some true.
Proof.
  destruct (hasFixes_is_asked_once (fun u v => String.eqb (path u) (path v))
              (Some true) done_uri false [sample_href; done_uri; done_uri] [])
    as (A & _ & E & _).
  split; [exact A|exact (proj2 (E eq_refl))].
Defined.

(** ** The last fetch *)

Lemma periodicFetchCallback_in_time (href : Z -> URI) (URI_toString : URI -> string)
    (revive_other : JSON -> error + URI) (net : Transport)
    (identifier : string) (startTime : Z) (fuel : nat) :
  (forall k, lag net k = 0) ->
  forall (k : nat) (now : Z),
    now - startTime < V2.FETCH_TIMEOUT + V2.FETCH_INTERVAL ->
    Forall (fun t => t - startTime < V2.FETCH_TIMEOUT + V2.FETCH_INTERVAL)
      (requests (fst (V2.periodicFetchCallback href URI_toString revive_other
                        net fuel identifier startTime k now))).
Proof.
  intros Hlag. induction fuel as [|fuel IH]; intros k now Hnow;
    cbn [V2.periodicFetchCallback]; autorewrite with trace.
  - repeat constructor. exact Hnow.
  - constructor; [exact Hnow|].
    destruct (body net k) as [content|]; [|constructor].
    autorewrite with trace.
    destruct (0 <? byteLength content).
    + destruct (callbacks_requests (now + latency net k) _
                  (handle_content_callbacks revive_other content))
        as (R & _).
      cbn [fst]. rewrite R. constructor.
    + destruct (now + latency net k - startTime <? V2.FETCH_TIMEOUT) eqn:E;
        autorewrite with trace; [|constructor].
      apply IH. apply Z.ltb_lt in E. rewrite Hlag. lia.
Qed.

(** X13.  With [FETCH_TIMEOUT] and timers that run on time, no fetch of a
    session is made [FETCH_TIMEOUT + FETCH_INTERVAL] or more after the
    session's start, however slow the transport is. *)
Theorem no_fetch_after_timeout_and_interval
    (href : Z -> URI) (URI_toString : URI -> string)
    (revive_other : JSON -> error + URI) (net : Transport) (fuel : nat)
    (now : Z) (identifier : string) (options : option IURLCreateOptions) :
  (forall k, lag net k = 0) ->
  Forall (fun t => t - now < V2.FETCH_TIMEOUT + V2.FETCH_INTERVAL)
    (requests (fst (snd (V2.create href URI_toString revive_other net
                           fuel now identifier options)))).
Proof.
  intros Hlag. cbn [V2.create snd].
  apply periodicFetchCallback_in_time; [exact Hlag|].
  unfold V2.FETCH_TIMEOUT, V2.FETCH_INTERVAL. lia.
Qed.

Lemma no_fetch_after_timeout_and_interval_slow :
  Forall (fun t => t - 0 < V2.FETCH_TIMEOUT + V2.FETCH_INTERVAL)
    (requests (fst (snd (V2.create sample_location sample_toString throws
                           (slow_start 4000 done_payload) 9 0 "abc123" None)))).
Proof.
  apply (no_fetch_after_timeout_and_interval sample_location sample_toString throws
           (slow_start 4000 done_payload) 9 0 "abc123" None).
  intros k. reflexivity.
Defined.
